(** * dex_tracker_system: partition scheduling and Uniswap-V3 event normalisation

    A shallow embedding of
      - [PostgresSchema.get_partition_queries]   (src/database/schema.py)
      - [UniswapV3Processor]                     (src/processors/uniswap_v3_processor.py)
    together with the properties of the specification that concern them. *)

From Stdlib Require Import ZArith List String Ascii Bool Lia.
From Stdlib Require DecimalString.
Import ListNotations.

Local Open Scope Z_scope.

#[local] Set Warnings "-register-all".

(** ** Exceptions and outcomes *)

(** The Python exceptions the modelled code can raise, followed by the four
    error names of the specification's taxonomy.  No path of the source
    constructs one of the latter four; they are here so that statements
    about them can be written down. *)
Inductive exn : Type :=
  | KeyError (key : string)
  | TypeError
  | ValueError
  | AttributeError
  | MalformedTransactionError
  | MalformedEventError
  | PartitionRangeError
  | PartitionConflictError.

(** The outcome of a call: a returned value, a raised exception, or a loop
    that exhausted its iteration budget. *)
Inductive outcome (A : Type) : Type :=
  | Returns (a : A)
  | Raises (e : exn)
  | Unfinished.

Arguments Returns {A} a.
Arguments Raises {A} e.
Arguments Unfinished {A}.

Definition bind {A B : Type} (c : outcome A) (k : A -> outcome B) : outcome B :=
  match c with
  | Returns a => k a
  | Raises e => Raises e
  | Unfinished => Unfinished
  end.

Notation "x <- c ;; k" := (bind c (fun x => k))
  (at level 61, c at next level, right associativity).

Definition returned {A : Type} (c : outcome A) : bool :=
  match c with Returns _ => true | _ => false end.

Definition omap {A B : Type} (f : A -> B) (c : outcome A) : outcome B :=
  match c with
  | Returns a => Returns (f a)
  | Raises e => Raises e
  | Unfinished => Unfinished
  end.

(** ** Calendar *)

Module Calendar.

(** A naive [datetime.datetime]. *)
Record datetime : Type := mk_datetime {
  year : Z;
  month : Z;
  day : Z;
  hour : Z;
  minute : Z;
  second : Z;
  microsecond : Z
}.

(** [datetime.timedelta], normalised as CPython stores it. *)
Record timedelta : Type := mk_timedelta {
  td_days : Z;
  td_seconds : Z;
  td_microseconds : Z
}.

Definition MINYEAR : Z := 1.
Definition MAXYEAR : Z := 9999.

Definition is_leap (y : Z) : bool :=
  (y mod 4 =? 0) && (negb (y mod 100 =? 0) || (y mod 400 =? 0)).

Definition days_in_month (y m : Z) : Z :=
  if m =? 2 then (if is_leap y then 29 else 28)
  else if (m =? 4) || (m =? 6) || (m =? 9) || (m =? 11) then 30
  else 31.

Definition between (lo x hi : Z) : bool := (lo <=? x) && (x <=? hi).

(** The constructor call [datetime(y, m, d)]: the date fields are checked
    and the time fields default to zero. *)
Definition datetime_new (y m d : Z) : outcome datetime :=
  if between MINYEAR y MAXYEAR && between 1 m 12
     && between 1 d (days_in_month y m)
  then Returns (mk_datetime y m d 0 0 0 0)
  else Raises ValueError.

(** What every [datetime] object satisfies. *)
Definition valid_datetime (d : datetime) : bool :=
  between MINYEAR (year d) MAXYEAR && between 1 (month d) 12
  && between 1 (day d) (days_in_month (year d) (month d))
  && between 0 (hour d) 23 && between 0 (minute d) 59
  && between 0 (second d) 59 && between 0 (microsecond d) 999999.

(** Lexicographic comparison of two field lists. *)
Fixpoint lex_ltb (a b : list Z) : bool :=
  match a, b with
  | x :: a', y :: b' => (x <? y) || ((x =? y) && lex_ltb a' b')
  | [], _ :: _ => true
  | _, [] => false
  end.

Definition fields (d : datetime) : list Z :=
  [year d; month d; day d; hour d; minute d; second d; microsecond d].

(** [a < b] on naive datetimes. *)
Definition dt_ltb (a b : datetime) : bool := lex_ltb (fields a) (fields b).

(** *** Proleptic Gregorian ordinals and the UTC reading of [timestamp()] *)

Definition days_before_year (y : Z) : Z :=
  let p := y - 1 in p * 365 + p / 4 - p / 100 + p / 400.

Definition DAYS_BEFORE_MONTH : list Z :=
  [0; 31; 59; 90; 120; 151; 181; 212; 243; 273; 304; 334].

Definition days_before_month (y m : Z) : Z :=
  nth (Z.to_nat (m - 1)) DAYS_BEFORE_MONTH 0
  + (if (2 <? m) && is_leap y then 1 else 0).

Definition ymd2ord (y m d : Z) : Z :=
  days_before_year y + days_before_month y m + d.

(** [int(d.timestamp())] for a process whose local zone is UTC:
    ordinal 719163 is 1970-01-01. *)
Definition utc_timestamp (d : datetime) : Z :=
  (ymd2ord (year d) (month d) (day d) - 719163) * 86400
  + hour d * 3600 + minute d * 60 + second d.

(** *** Text formatting *)

Definition str_of_Z (z : Z) : string := DecimalString.NilZero.string_of_int (Z.to_int z).

Fixpoint zeros (n : nat) : string :=
  match n with
  | O => EmptyString
  | S n' => String "0"%char (zeros n')
  end.

(** Left-pad with zeros to [width] characters. *)
Definition zero_pad (width : nat) (s : string) : string :=
  (zeros (width - String.length s) ++ s)%string.

(** [d.strftime('%Y_%m')]: the year as four digits, an underscore, the
    month as two digits, as the library documents [%Y] and [%m].  For
    years below 1000 the C library decides whether [%Y] has leading zeros
    (glibc writes none), so the properties below that spell out a name do
    so for years from 1000 on, where every platform writes the same four
    digits. *)
Definition strftime_Y_m (d : datetime) : string :=
  (zero_pad 4 (str_of_Z (year d)) ++ "_" ++ zero_pad 2 (str_of_Z (month d)))%string.

End Calendar.

(** ** PostgresSchema.get_partition_queries *)

Module Schema.
Import Calendar.

Definition nl : string := String (ascii_of_nat 10) EmptyString.

(** The [for table in ['swaps', 'mints', 'burns']] list. *)
Definition base_tables : list string := ["swaps"; "mints"; "burns"]%string.

(** The f-string [f"{table}_p{partition_suffix}"]. *)
Definition partition_name (table suffix : string) : string :=
  (table ++ "_p" ++ suffix)%string.

(** The triple-quoted f-string of the loop body, line by line. *)
Definition query_text (table name : string) (partition_start partition_end : Z)
  : string :=
  (nl ++
   "                DO $$ " ++ nl ++
   "                BEGIN " ++ nl ++
   "                    IF NOT EXISTS (" ++ nl ++
   "                        SELECT 1" ++ nl ++
   "                        FROM pg_class c" ++ nl ++
   "                        JOIN pg_namespace n ON n.oid = c.relnamespace" ++ nl ++
   "                        WHERE c.relname = '" ++ name ++ "'" ++ nl ++
   "                    ) THEN" ++ nl ++
   "                        CREATE TABLE " ++ name ++ nl ++
   "                        PARTITION OF " ++ table ++ nl ++
   "                        FOR VALUES FROM (" ++ str_of_Z partition_start
     ++ ") TO (" ++ str_of_Z partition_end ++ ");" ++ nl ++
   "                    END IF;" ++ nl ++
   "                END $$;" ++ nl ++
   "                ")%string.

(** The four values interpolated into one statement. *)
Record PartitionSpec : Type := mk_spec {
  table : string;
  name : string;
  range_start : Z;
  range_end : Z
}.

Definition render (sp : PartitionSpec) : string :=
  query_text (table sp) (name sp) (range_start sp) (range_end sp).

(** The rounding-up that the source writes twice (for [end_date] and for
    [next_date]): December rolls to January of the next year. *)
Definition next_month_start (d : datetime) : outcome datetime :=
  if month d =? 12 then datetime_new (year d + 1) 1 1
  else datetime_new (year d) (month d + 1) 1.

(** The datetimes on which [timestamp()] fails: those of the first day of
    year 1. *)
Definition timestamp_refused (d : datetime) : bool :=
  (year d =? MINYEAR) && (month d =? 1) && (day d =? 1).

(** An upper bound on the iterations of [while current_date < end_date]:
    the loop's variant. *)
Definition loop_budget (current_date end_date : datetime) : nat :=
  S (Z.to_nat (12 * (year end_date - year current_date) + 13 - month current_date)).

Section Queries.

(** The value of [int(d.timestamp())] where the call succeeds.  For a
    naive datetime it depends on the local time zone of the process, so it
    is kept abstract here; [Calendar.utc_timestamp] is the instance for a
    process running in UTC. *)
Variable timestamp : datetime -> Z.

(** [int(d.timestamp())].  To convert a naive datetime CPython looks at
    the local time one day earlier; on 0001-01-01 that day lies in year 0
    and the call raises [ValueError], in every time zone. *)
Definition int_timestamp (d : datetime) : outcome Z :=
  if timestamp_refused d then Raises ValueError else Returns (timestamp d).

(** What is appended to [queries] for one table; the source appends the
    rendered statement ([query_text]). *)
Context {Q : Type}.
Variable emit : string -> string -> Z -> Z -> Q.

Fixpoint partition_loop (budget : nat) (queries : list Q)
    (current_date end_date : datetime) : outcome (list Q) :=
  match budget with
  | O => Unfinished
  | S budget' =>
      if dt_ltb current_date end_date then
        next_date <- next_month_start current_date ;;
        partition_start <- int_timestamp current_date ;;
        partition_end <- int_timestamp next_date ;;
        let partition_suffix := strftime_Y_m current_date in
        let queries' :=
          queries ++
          map (fun table =>
                 emit table (partition_name table partition_suffix)
                      partition_start partition_end)
              base_tables in
        partition_loop budget' queries' next_date end_date
      else Returns queries
  end.

Definition partition_queries_with (start_date end_date : datetime)
    (interval : timedelta) : outcome (list Q) :=
  start_date' <- datetime_new (year start_date) (month start_date) 1 ;;
  end_date' <- next_month_start end_date ;;
  partition_loop (loop_budget start_date' end_date') [] start_date' end_date'.

End Queries.

(** The method itself: a list of SQL statements. *)
Definition get_partition_queries (timestamp : datetime -> Z)
    (start_date end_date : datetime) (interval : timedelta)
  : outcome (list string) :=
  partition_queries_with timestamp query_text start_date end_date interval.

(** The same run, keeping the interpolated values of every statement
    instead of its text. *)
Definition get_partition_specs (timestamp : datetime -> Z)
    (start_date end_date : datetime) (interval : timedelta)
  : outcome (list PartitionSpec) :=
  partition_queries_with timestamp mk_spec start_date end_date interval.

(** *** Reference description of the result *)

(** First instant of month [m] of year [y]. *)
Definition month_start (ym : Z * Z) : datetime :=
  mk_datetime (fst ym) (snd ym) 1 0 0 0 0.

Definition succ_month (ym : Z * Z) : Z * Z :=
  if snd ym =? 12 then (fst ym + 1, 1) else (fst ym, snd ym + 1).

(** [n] consecutive calendar months starting at [ym]. *)
Fixpoint months_from (n : nat) (ym : Z * Z) : list (Z * Z) :=
  match n with
  | O => []
  | S n' => ym :: months_from n' (succ_month ym)
  end.

Definition floor_to_month (d : datetime) : datetime :=
  month_start (year d, month d).

Definition ceil_to_month (d : datetime) : datetime :=
  month_start (succ_month (year d, month d)).

(** Number of calendar months from the month of [s] to the month of [e],
    both included. *)
Definition month_count (s e : datetime) : nat :=
  Z.to_nat (12 * (year e - year s) + (month e - month s) + 1).

Definition specs_of_month (timestamp : datetime -> Z) (ym : Z * Z)
  : list PartitionSpec :=
  map (fun tb =>
         mk_spec tb (partition_name tb (strftime_Y_m (month_start ym)))
                 (timestamp (month_start ym))
                 (timestamp (month_start (succ_month ym))))
      base_tables.

Definition expected_specs (timestamp : datetime -> Z) (s e : datetime)
  : list PartitionSpec :=
  flat_map (specs_of_month timestamp)
           (months_from (month_count s e) (year s, month s)).

(** A timestamp [t] falls in the half-open range of [sp]. *)
Definition in_range (t : Z) (sp : PartitionSpec) : bool :=
  (range_start sp <=? t) && (t <? range_end sp).

Definition of_table (tb : string) (sp : PartitionSpec) : bool :=
  String.eqb (table sp) tb.

(** Month starts are ordered in time by [timestamp]. *)
Definition month_starts_increase (timestamp : datetime -> Z) : Prop :=
  forall y m, between MINYEAR y MAXYEAR = true -> between 1 m 12 = true ->
    fst (succ_month (y, m)) <= MAXYEAR ->
    timestamp (month_start (y, m)) < timestamp (month_start (succ_month (y, m))).

(** The last representable month: its successor is year 10000. *)
Definition in_last_month (d : datetime) : bool :=
  (year d =? MAXYEAR) && (month d =? 12).

(** The first month of the calendar, whose start [timestamp()] refuses. *)
Definition in_first_month (d : datetime) : bool :=
  (year d =? MINYEAR) && (month d =? 1).

(** A spec without its name: table and range. *)
Definition bounds (sp : PartitionSpec) : string * Z * Z :=
  (table sp, range_start sp, range_end sp).

Definition bounds_of_month (timestamp : datetime -> Z) (ym : Z * Z)
  : list (string * Z * Z) :=
  map (fun tb => (tb, timestamp (month_start ym),
                  timestamp (month_start (succ_month ym))))
      base_tables.

Definition expected_bounds (timestamp : datetime -> Z) (s e : datetime)
  : list (string * Z * Z) :=
  flat_map (bounds_of_month timestamp)
           (months_from (month_count s e) (year s, month s)).

Definition same_month (a b : datetime) : bool :=
  (year a =? year b) && (month a =? month b).

(** The month reached [n] months after [ym]. *)
Fixpoint month_after (n : nat) (ym : Z * Z) : Z * Z :=
  match n with
  | O => ym
  | S n' => month_after n' (succ_month ym)
  end.

(** How many specs of table [tb] have [t] in their range. *)
Definition covering (tb : string) (t : Z) (specs : list PartitionSpec) : nat :=
  List.length (filter (fun sp => of_table tb sp && in_range t sp) specs).

(** A month [(y, m)] of the calendar. *)
Definition valid_month (ym : Z * Z) : Prop :=
  MINYEAR <= fst ym <= MAXYEAR /\ 1 <= snd ym <= 12.

(** Months counted from year 0. *)
Definition month_index (ym : Z * Z) : Z := 12 * fst ym + snd ym.

(** *** Sample windows *)

Definition nov_2023 : datetime := mk_datetime 2023 11 15 10 30 0 0.
Definition jan_2024 : datetime := mk_datetime 2024 1 3 0 0 0 0.
Definition mar_2024 : datetime := mk_datetime 2024 3 15 0 0 0 0.
Definition one_day : timedelta := mk_timedelta 1 0 0.
Definition thirty_days : timedelta := mk_timedelta 30 0 0.
Definition jan_20_2024 : datetime := mk_datetime 2024 1 20 12 0 0 0.
Definition jan_3_year_1 : datetime := mk_datetime 1 1 3 0 0 0 0.
Definition jan_20_year_1 : datetime := mk_datetime 1 1 20 0 0 0 0.
Definition mar_year_1 : datetime := mk_datetime 1 3 1 0 0 0 0.

End Schema.

(** ** Python values of a decoded subgraph response *)

Module Py.

(** JSON-shaped values: [None], booleans, integers, strings, lists and
    dicts with string keys (kept in insertion order). *)
Inductive pyval : Type :=
  | PNone
  | PBool (b : bool)
  | PInt (z : Z)
  | PStr (s : string)
  | PList (l : list pyval)
  | PDict (items : list (string * pyval)).

Fixpoint lookup (k : string) (items : list (string * pyval)) : option pyval :=
  match items with
  | [] => None
  | (k', v) :: rest => if String.eqb k' k then Some v else lookup k rest
  end.

(** [v[k]] with a string key. *)
Definition getitem (v : pyval) (k : string) : outcome pyval :=
  match v with
  | PDict items =>
      match lookup k items with
      | Some x => Returns x
      | None => Raises (KeyError k)
      end
  | _ => Raises TypeError
  end.

(** [v[k1][k2]...]. *)
Fixpoint getpath (v : pyval) (ks : list string) : outcome pyval :=
  match ks with
  | [] => Returns v
  | k :: ks' => x <- getitem v k ;; getpath x ks'
  end.

(** [v.get(k, default)]. *)
Definition py_get (v : pyval) (k : string) (default : pyval) : outcome pyval :=
  match v with
  | PDict items =>
      match lookup k items with
      | Some x => Returns x
      | None => Returns default
      end
  | _ => Raises AttributeError
  end.

(** [len(v)]. *)
Definition py_len (v : pyval) : outcome Z :=
  match v with
  | PList l => Returns (Z.of_nat (List.length l))
  | PDict items => Returns (Z.of_nat (List.length items))
  | PStr s => Returns (Z.of_nat (String.length s))
  | _ => Raises TypeError
  end.

Fixpoint chars (s : string) : list pyval :=
  match s with
  | EmptyString => []
  | String c s' => PStr (String c EmptyString) :: chars s'
  end.

(** The elements that [for x in v] visits. *)
Definition py_iter (v : pyval) : outcome (list pyval) :=
  match v with
  | PList l => Returns l
  | PDict items => Returns (map (fun kv => PStr (fst kv)) items)
  | PStr s => Returns (chars s)
  | _ => Raises TypeError
  end.

(** The keyword arguments that spreading [v] into a call supplies; only a
    mapping can be spread. *)
Definition py_kwargs (v : pyval) : outcome (list (string * pyval)) :=
  match v with
  | PDict items => Returns items
  | _ => Raises TypeError
  end.

(** *** A decimal reading of [int()], to run the model on examples *)

Definition digit_of (c : ascii) : option Z :=
  let n := Z.of_nat (nat_of_ascii c) in
  if (48 <=? n) && (n <=? 57) then Some (n - 48) else None.

Fixpoint digits_value (acc : Z) (s : string) : option Z :=
  match s with
  | EmptyString => Some acc
  | String c s' =>
      match digit_of c with
      | Some d => digits_value (10 * acc + d) s'
      | None => None
      end
  end.

Definition parse_decimal (s : string) : option Z :=
  match s with
  | EmptyString => None
  | String "-"%char (String c r) => option_map Z.opp (digits_value 0 (String c r))
  | String "+"%char (String c r) => digits_value 0 (String c r)
  | _ => digits_value 0 s
  end.

(** [int(v)] on integers, booleans and plain signed decimal strings; the
    theorems below hold for every behaviour of [int], this one is used to
    evaluate examples. *)
Definition int_decimal (v : pyval) : exn + Z :=
  match v with
  | PInt z => inr z
  | PBool b => inr (if b then 1 else 0)
  | PStr s =>
      match parse_decimal s with
      | Some z => inr z
      | None => inl ValueError
      end
  | _ => inl TypeError
  end.

End Py.

(** ** UniswapV3Processor *)

Module Processor.
Import Py.

(** *** The records of [database.models]

    Modelled from the spec: the classes [BaseTransaction], [SwapEvent],
    [MintEvent], [BurnEvent], [CollectEvent] and [FlashEvent] are imported
    from [database.models], which is not among the sources.  Following the
    data model of the specification, each is a plain record holding the
    keyword arguments it is constructed with; [CollectEvent] and
    [FlashEvent], "constructed generically from the raw payload's key set",
    hold the parent transaction and the spread key/value pairs. *)

Record BaseTransaction : Type := mk_transaction {
  tx_id : pyval;
  tx_dex_id : string;
  tx_block_number : Z;
  tx_timestamp : Z;
  tx_gas_used : pyval;
  tx_gas_price : pyval
}.

Record SwapEvent : Type := mk_swap {
  swap_parent_transaction : BaseTransaction;
  swap_timestamp : Z;
  swap_id : pyval;
  swap_token0_symbol : pyval;
  swap_token1_symbol : pyval;
  swap_token0_name : pyval;
  swap_token1_name : pyval;
  swap_token0_id : pyval;
  swap_token1_id : pyval;
  swap_amount0 : pyval;
  swap_amount1 : pyval;
  swap_amount_usd : pyval;
  swap_sender : pyval;
  swap_recipient : pyval;
  swap_origin : pyval;
  swap_fee_tier : pyval;
  swap_liquidity : pyval;
  swap_dex_id : string
}.

(** [MintEvent] and [BurnEvent] take the same keyword arguments. *)
Record LiquidityEvent : Type := mk_liquidity {
  liq_parent_transaction : BaseTransaction;
  liq_timestamp : Z;
  liq_id : pyval;
  liq_token0_symbol : pyval;
  liq_token1_symbol : pyval;
  liq_token0_name : pyval;
  liq_token1_name : pyval;
  liq_token0_id : pyval;
  liq_token1_id : pyval;
  liq_amount0 : pyval;
  liq_amount1 : pyval;
  liq_amount_usd : pyval;
  liq_owner : pyval;
  liq_origin : pyval;
  liq_fee_tier : pyval;
  liq_liquidity : pyval;
  liq_dex_id : string
}.

Definition MintEvent : Type := LiquidityEvent.
Definition BurnEvent : Type := LiquidityEvent.

Record SpreadEvent : Type := mk_spread {
  spread_parent_transaction : BaseTransaction;
  spread_fields : list (string * pyval)
}.

Definition CollectEvent : Type := SpreadEvent.
Definition FlashEvent : Type := SpreadEvent.

(** The attribute [name] of a generically constructed record. *)
Definition spread_attr (name : string) (ev : SpreadEvent) : option pyval :=
  lookup name (spread_fields ev).

(** The dict that [process_response] returns, one field per key. *)
Record Events : Type := mk_events {
  swaps : list SwapEvent;
  mints : list MintEvent;
  burns : list BurnEvent;
  collects : list CollectEvent;
  flashs : list FlashEvent
}.

(** The five-element list that [process_bulk_responses] returns. *)
Definition Results : Type :=
  (list SwapEvent * list MintEvent * list BurnEvent
   * list CollectEvent * list FlashEvent)%type.

(** [for x in xs: out.append(f(x))], stopping at the first exception. *)
Fixpoint for_each {A B : Type} (f : A -> outcome B) (xs : list A)
  : outcome (list B) :=
  match xs with
  | [] => Returns []
  | x :: xs' => y <- f x ;; ys <- for_each f xs' ;; Returns (y :: ys)
  end.

Definition lift {A : Type} (r : exn + A) : outcome A :=
  match r with
  | inl e => Raises e
  | inr a => Returns a
  end.

Section Methods.

(** [self.dex_id], set by the base class from ['uniswap_v3']. *)
Variable dex_id : string.

(** The builtin [int], as a function from a value to an exception or an
    integer. *)
Variable py_int : pyval -> exn + Z.

(** The body of the loop of [_process_swaps]: the keyword arguments are
    evaluated left to right. *)
Definition swap_event (transaction : BaseTransaction) (swap : pyval)
  : outcome SwapEvent :=
  let timestamp := tx_timestamp transaction in
  id <- getitem swap "id" ;;
  token0_symbol <- getpath swap ["pool"; "token0"; "symbol"]%string ;;
  token1_symbol <- getpath swap ["pool"; "token1"; "symbol"]%string ;;
  token0_name <- getpath swap ["pool"; "token0"; "name"]%string ;;
  token1_name <- getpath swap ["pool"; "token1"; "name"]%string ;;
  token0_id <- getpath swap ["pool"; "token0"; "id"]%string ;;
  token1_id <- getpath swap ["pool"; "token1"; "id"]%string ;;
  amount0 <- getitem swap "amount0" ;;
  amount1 <- getitem swap "amount1" ;;
  amount_usd <- getitem swap "amountUSD" ;;
  sender <- getitem swap "sender" ;;
  recipient <- getitem swap "recipient" ;;
  origin <- getitem swap "origin" ;;
  fee_tier <- getpath swap ["pool"; "feeTier"]%string ;;
  liquidity <- getpath swap ["pool"; "liquidity"]%string ;;
  Returns (mk_swap transaction timestamp id token0_symbol token1_symbol
             token0_name token1_name token0_id token1_id
             amount0 amount1 amount_usd sender recipient
             origin fee_tier liquidity dex_id).

(** The body of the loop of [_process_mints]. *)
Definition mint_event (transaction : BaseTransaction) (mint : pyval)
  : outcome MintEvent :=
  let timestamp := tx_timestamp transaction in
  id <- getitem mint "id" ;;
  token0_symbol <- getpath mint ["pool"; "token0"; "symbol"]%string ;;
  token1_symbol <- getpath mint ["pool"; "token1"; "symbol"]%string ;;
  token0_name <- getpath mint ["pool"; "token0"; "name"]%string ;;
  token1_name <- getpath mint ["pool"; "token1"; "name"]%string ;;
  token0_id <- getpath mint ["pool"; "token0"; "id"]%string ;;
  token1_id <- getpath mint ["pool"; "token1"; "id"]%string ;;
  amount0 <- getitem mint "amount0" ;;
  amount1 <- getitem mint "amount1" ;;
  amount_usd <- getitem mint "amountUSD" ;;
  owner <- getitem mint "owner" ;;
  origin <- getitem mint "origin" ;;
  fee_tier <- getpath mint ["pool"; "feeTier"]%string ;;
  liquidity <- getpath mint ["pool"; "liquidity"]%string ;;
  Returns (mk_liquidity transaction timestamp id token0_symbol token1_symbol
             token0_name token1_name token0_id token1_id
             amount0 amount1 amount_usd owner
             origin fee_tier liquidity dex_id).

(** The body of the loop of [_process_burns]: the token identifiers are
    read before the token names. *)
Definition burn_event (transaction : BaseTransaction) (burn : pyval)
  : outcome BurnEvent :=
  let timestamp := tx_timestamp transaction in
  id <- getitem burn "id" ;;
  token0_symbol <- getpath burn ["pool"; "token0"; "symbol"]%string ;;
  token1_symbol <- getpath burn ["pool"; "token1"; "symbol"]%string ;;
  token0_id <- getpath burn ["pool"; "token0"; "id"]%string ;;
  token1_id <- getpath burn ["pool"; "token1"; "id"]%string ;;
  token0_name <- getpath burn ["pool"; "token0"; "name"]%string ;;
  token1_name <- getpath burn ["pool"; "token1"; "name"]%string ;;
  amount0 <- getitem burn "amount0" ;;
  amount1 <- getitem burn "amount1" ;;
  amount_usd <- getitem burn "amountUSD" ;;
  owner <- getitem burn "owner" ;;
  origin <- getitem burn "origin" ;;
  fee_tier <- getpath burn ["pool"; "feeTier"]%string ;;
  liquidity <- getpath burn ["pool"; "liquidity"]%string ;;
  Returns (mk_liquidity transaction timestamp id token0_symbol token1_symbol
             token0_name token1_name token0_id token1_id
             amount0 amount1 amount_usd owner
             origin fee_tier liquidity dex_id).

(** The body of the loops of [_process_collects] and [_process_flashs]:
    the element is spread into keyword arguments next to
    [parent_transaction], which therefore must not be one of its keys. *)
Definition spread_event (transaction : BaseTransaction) (element : pyval)
  : outcome SpreadEvent :=
  kwargs <- py_kwargs element ;;
  match lookup "parent_transaction" kwargs with
  | Some _ => Raises TypeError
  | None => Returns (mk_spread transaction kwargs)
  end.

(** The common shape of the five [_process_*] methods: an early return on
    an empty argument, then the loop; the [except] clause logs and
    re-raises the exception it caught. *)
Definition process_list {E : Type}
    (event : BaseTransaction -> pyval -> outcome E)
    (data : pyval) (transaction : BaseTransaction) : outcome (list E) :=
  n <- py_len data ;;
  if negb (n >? 0) then Returns []
  else elements <- py_iter data ;; for_each (event transaction) elements.

Definition _process_swaps := process_list swap_event.
Definition _process_mints := process_list mint_event.
Definition _process_burns := process_list burn_event.
Definition _process_collects := process_list spread_event.
Definition _process_flashs := process_list spread_event.

(** The [BaseTransaction(...)] call of [process_response]. *)
Definition base_transaction (transaction_data : pyval)
  : outcome BaseTransaction :=
  id <- getitem transaction_data "id" ;;
  block_number_raw <- getitem transaction_data "blockNumber" ;;
  block_number <- lift (py_int block_number_raw) ;;
  timestamp_raw <- getitem transaction_data "timestamp" ;;
  timestamp <- lift (py_int timestamp_raw) ;;
  gas_used <- getitem transaction_data "gasUsed" ;;
  gas_price <- getitem transaction_data "gasPrice" ;;
  Returns (mk_transaction id dex_id block_number timestamp gas_used gas_price).

Definition process_response (transaction_data : pyval) : outcome Events :=
  transaction <- base_transaction transaction_data ;;
  swaps_data <- py_get transaction_data "swaps" (PList []) ;;
  swaps <- _process_swaps swaps_data transaction ;;
  mints_data <- py_get transaction_data "mints" (PList []) ;;
  mints <- _process_mints mints_data transaction ;;
  burns_data <- py_get transaction_data "burns" (PList []) ;;
  burns <- _process_burns burns_data transaction ;;
  collects_data <- py_get transaction_data "collects" (PList []) ;;
  collects <- _process_collects collects_data transaction ;;
  flashs_data <- py_get transaction_data "flashed" (PList []) ;;
  flashs <- _process_flashs flashs_data transaction ;;
  Returns (mk_events swaps mints burns collects flashs).

(** [results[i].extend(events[...])] for the five kinds. *)
Definition extend_results (results : Results) (events : Events) : Results :=
  let '(r0, r1, r2, r3, r4) := results in
  (r0 ++ swaps events, r1 ++ mints events, r2 ++ burns events,
   r3 ++ collects events, r4 ++ flashs events).

(** The loop over the transactions of the batch. *)
Fixpoint bulk_loop (transactions : list pyval) (results : Results)
  : outcome Results :=
  match transactions with
  | [] => Returns results
  | transaction_data :: rest =>
      events <- process_response transaction_data ;;
      bulk_loop rest (extend_results results events)
  end.

Definition process_bulk_responses (response_data : pyval) : outcome Results :=
  (* the f-string argument of the first debug call *)
  data_or_empty <- py_get response_data "data" (PDict []) ;;
  transactions_or_empty <- py_get data_or_empty "transactions" (PList []) ;;
  _ <- py_len transactions_or_empty ;;
  (* the try block; its handler re-raises the exception it caught *)
  data <- getitem response_data "data" ;;
  transactions_value <- getitem data "transactions" ;;
  transactions <- py_iter transactions_value ;;
  bulk_loop transactions ([], [], [], [], []).

(** The elements of the sub-list [key] of a payload, as the methods above
    iterate them: none when the value is empty or the key is absent. *)
Definition elements_of (transaction_data : pyval) (key : string) : list pyval :=
  match py_get transaction_data key (PList []) with
  | Returns data =>
      match py_iter data with
      | Returns l => l
      | _ => []
      end
  | _ => []
  end.

End Methods.

(** The top-level keys that [BaseTransaction(...)] reads. *)
Definition required_keys : list string :=
  ["id"; "blockNumber"; "timestamp"; "gasUsed"; "gasPrice"]%string.

(** *** What a record carries over from its element *)

(** The fields of a swap record that the properties below speak of,
    against the element [x] and the transaction [t] it was built from. *)
Definition swap_carries (t : BaseTransaction) (x : pyval) (r : SwapEvent) : Prop :=
  swap_parent_transaction r = t
  /\ swap_timestamp r = tx_timestamp t
  /\ getitem x "amount0" = Returns (swap_amount0 r)
  /\ getitem x "amount1" = Returns (swap_amount1 r)
  /\ getitem x "amountUSD" = Returns (swap_amount_usd r)
  /\ getitem x "origin" = Returns (swap_origin r)
  /\ getpath x ["pool"; "feeTier"]%string = Returns (swap_fee_tier r)
  /\ getpath x ["pool"; "liquidity"]%string = Returns (swap_liquidity r).

Definition liquidity_carries (t : BaseTransaction) (x : pyval) (r : LiquidityEvent) : Prop :=
  liq_parent_transaction r = t
  /\ liq_timestamp r = tx_timestamp t
  /\ getitem x "amount0" = Returns (liq_amount0 r)
  /\ getitem x "amount1" = Returns (liq_amount1 r)
  /\ getitem x "amountUSD" = Returns (liq_amount_usd r)
  /\ getitem x "origin" = Returns (liq_origin r)
  /\ getpath x ["pool"; "feeTier"]%string = Returns (liq_fee_tier r)
  /\ getpath x ["pool"; "liquidity"]%string = Returns (liq_liquidity r).

Definition spread_carries (t : BaseTransaction) (x : pyval) (r : SpreadEvent) : Prop :=
  spread_parent_transaction r = t /\ x = PDict (spread_fields r).

Definition swap_amounts (t : BaseTransaction) (x : pyval) (r : SwapEvent) : Prop :=
  swap_parent_transaction r = t
  /\ getitem x "amount0" = Returns (swap_amount0 r)
  /\ getitem x "amount1" = Returns (swap_amount1 r)
  /\ getitem x "amountUSD" = Returns (swap_amount_usd r).

Definition liquidity_amounts (t : BaseTransaction) (x : pyval) (r : LiquidityEvent) : Prop :=
  liq_parent_transaction r = t
  /\ getitem x "amount0" = Returns (liq_amount0 r)
  /\ getitem x "amount1" = Returns (liq_amount1 r)
  /\ getitem x "amountUSD" = Returns (liq_amount_usd r).

Definition swap_optionals (x : pyval) (r : SwapEvent) : Prop :=
  getitem x "origin" = Returns (swap_origin r)
  /\ getpath x ["pool"; "feeTier"]%string = Returns (swap_fee_tier r)
  /\ getpath x ["pool"; "liquidity"]%string = Returns (swap_liquidity r).

Definition liquidity_optionals (x : pyval) (r : LiquidityEvent) : Prop :=
  getitem x "origin" = Returns (liq_origin r)
  /\ getpath x ["pool"; "feeTier"]%string = Returns (liq_fee_tier r)
  /\ getpath x ["pool"; "liquidity"]%string = Returns (liq_liquidity r).

(** Reading one of the optional fields of an element. *)
Definition optional_reads (x : pyval) : list (outcome pyval) :=
  [getitem x "origin"; getpath x ["pool"; "feeTier"]%string;
   getpath x ["pool"; "liquidity"]%string].

(** *** Sample payloads *)

Module Samples.
Local Open Scope string_scope.

Definition token (symbol name id : string) : pyval :=
  PDict [("id", PStr id); ("symbol", PStr symbol); ("name", PStr name)].

Definition pool (fee_tier liquidity : pyval) : pyval :=
  PDict [("token0", token "WETH" "Wrapped Ether" "0xc02a");
         ("token1", token "USDC" "USD Coin" "0xa0b8");
         ("feeTier", fee_tier); ("liquidity", liquidity)].

(** A swap whose origin is null and whose fee tier is the integer 0. *)
Definition swap_full : pyval :=
  PDict [("id", PStr "0xabc#1"); ("pool", pool (PInt 0) (PStr "1234"));
         ("amount0", PStr "123456789012345678901234.5");
         ("amount1", PStr "-2.25"); ("amountUSD", PStr "3.5");
         ("sender", PStr "0xaa"); ("recipient", PStr "0xbb");
         ("origin", PNone)].

(** The same swap without the key [origin]. *)
Definition swap_no_origin : pyval :=
  PDict [("id", PStr "0xabc#1"); ("pool", pool (PInt 0) (PStr "1234"));
         ("amount0", PStr "123456789012345678901234.5");
         ("amount1", PStr "-2.25"); ("amountUSD", PStr "3.5");
         ("sender", PStr "0xaa"); ("recipient", PStr "0xbb")].

Definition collect_later : pyval :=
  PDict [("id", PStr "0xabc#7"); ("timestamp", PStr "1700000999");
         ("amount0", PStr "10"); ("amount1", PStr "20")].

Definition header : list (string * pyval) :=
  [("id", PStr "0xabc"); ("blockNumber", PStr "18500000");
   ("timestamp", PStr "1700000000"); ("gasUsed", PStr "21000");
   ("gasPrice", PStr "30000000000")].

Definition tx_swap : pyval := PDict (header ++ [("swaps", PList [swap_full])]).

Definition tx_no_origin : pyval :=
  PDict (header ++ [("swaps", PList [swap_no_origin])]).

Definition tx_collect : pyval :=
  PDict (header ++ [("swaps", PList [swap_full]); ("collects", PList [collect_later])]).

Definition items_no_timestamp : list (string * pyval) :=
  [("id", PStr "0xabc"); ("blockNumber", PStr "18500000");
   ("gasUsed", PStr "21000"); ("gasPrice", PStr "30000000000");
   ("swaps", PList [swap_full])].

Definition batch : pyval :=
  PDict [("data", PDict [("transactions",
            PList [tx_swap; PDict items_no_timestamp; tx_collect])])].

Definition uniswap_v3 : string := "uniswap_v3".

End Samples.

End Processor.

(** ** UniswapV3Processor._process_tokens *)

Module Tokens.
Import Py Processor.

(** The tuple [(token['id'], token['symbol'], token['name'])]. *)
Definition token_tuple (token : pyval) : outcome (pyval * pyval * pyval) :=
  id <- getitem token "id" ;;
  symbol <- getitem token "symbol" ;;
  name <- getitem token "name" ;;
  Returns (id, symbol, name).

(** The list comprehension over
    [tokens_data.get("data", {}).get("tokens", [])]; the handler re-raises
    the exception it caught. *)
Definition _process_tokens (tokens_data : pyval)
  : outcome (list (pyval * pyval * pyval)) :=
  data <- py_get tokens_data "data" (PDict []) ;;
  tokens_value <- py_get data "tokens" (PList []) ;;
  tokens <- py_iter tokens_value ;;
  for_each token_tuple tokens.

(** The tokens that the comprehension visits: none when they cannot be
    reached. *)
Definition tokens_of (tokens_data : pyval) : list pyval :=
  match (data <- py_get tokens_data "data" (PDict []) ;;
         tokens_value <- py_get data "tokens" (PList []) ;;
         py_iter tokens_value) with
  | Returns l => l
  | _ => []
  end.

(** A tuple holds the three values read from its token. *)
Definition tuple_reads (token : pyval) (tuple : pyval * pyval * pyval) : Prop :=
  getitem token "id" = Returns (fst (fst tuple))
  /\ getitem token "symbol" = Returns (snd (fst tuple))
  /\ getitem token "name" = Returns (snd tuple).

End Tokens.

(** ** UniswapV3Querier *)

Module Querier.
Import Py Processor.

(** The argument of the debug call made after a query:
    [len(response.get('data', {}).get(key, []))]. *)
Definition logged_count (response : pyval) (key : string) : outcome Z :=
  data <- py_get response "data" (PDict []) ;;
  listed <- py_get data key (PList []) ;;
  py_len listed.

Section Methods.

(** [get_uniswap_v3_query()] and [get_uniswap_v3_tokens_query()], from the
    module [queries], which is not among the sources. *)
Variable uniswap_v3_query : string.
Variable uniswap_v3_tokens_query : string.

(** [self._send_query(query, variables)], inherited from [BaseQuerier],
    which is not among the sources: what one call answers, an exception or
    the decoded response. *)
Variable _send_query : string -> list (string * pyval) -> exn + pyval.

(** The handler of both methods logs and re-raises. *)
Definition get_transactions (start_timestamp end_timestamp skip : Z)
  : outcome pyval :=
  let variables :=
    [("startTimestamp", PInt start_timestamp);
     ("endTimestamp", PInt end_timestamp);
     ("skip", PInt skip)]%string in
  response <- lift (_send_query uniswap_v3_query variables) ;;
  _ <- logged_count response "transactions" ;;
  Returns response.

Definition get_tokens (skip : Z) : outcome pyval :=
  let variables := [("first", PInt 1000); ("skip", PInt skip)]%string in
  response <- lift (_send_query uniswap_v3_tokens_query variables) ;;
  _ <- logged_count response "tokens" ;;
  Returns response.

End Methods.

End Querier.

(** ** Reading partition names back *)

Module Naming.
Import Calendar Schema.

(** [s] without its prefix [p], when it has it. *)
Fixpoint strip_prefix (p s : string) : option string :=
  match p, s with
  | EmptyString, _ => Some s
  | String a p', String b s' => if Ascii.eqb a b then strip_prefix p' s' else None
  | String _ _, EmptyString => None
  end.

(** The value of a string of decimal digits. *)
Fixpoint decimal_value (acc : Z) (s : string) : option Z :=
  match s with
  | EmptyString => Some acc
  | String c s' =>
      let n := Z.of_nat (nat_of_ascii c) in
      if (48 <=? n) && (n <=? 57) then decimal_value (10 * acc + (n - 48)) s'
      else None
  end.

(** The year and month of a suffix [YYYY_MM]. *)
Definition decode_suffix (s : string) : option (Z * Z) :=
  match decimal_value 0 (substring 0 4 s),
        strip_prefix "_" (substring 4 1 s),
        decimal_value 0 (substring 5 2 s) with
  | Some y, Some _, Some m =>
      if Nat.eqb (String.length s) 7 then Some (y, m) else None
  | _, _, _ => None
  end.

(** The table and month of a partition name. *)
Fixpoint decode_name_in (tables : list string) (s : string)
  : option (string * (Z * Z)) :=
  match tables with
  | [] => None
  | tb :: rest =>
      match strip_prefix (tb ++ "_p") s with
      | Some suffix => option_map (pair tb) (decode_suffix suffix)
      | None => decode_name_in rest s
      end
  end.

Definition decode_name : string -> option (string * (Z * Z)) :=
  decode_name_in base_tables.

(** A number written on [width] digits reads back. *)
Definition reads_back (width : nat) (n : Z) : bool :=
  let s := zero_pad width (str_of_Z n) in
  Nat.eqb (String.length s) width
  && match decimal_value 0 s with
     | Some z => z =? n
     | None => false
     end.

(** [lo; lo + 1; ...], [n] numbers. *)
Fixpoint count_from (lo : Z) (n : nat) : list Z :=
  match n with
  | O => []
  | S n' => lo :: count_from (lo + 1) n'
  end.

End Naming.

(** ** Further vocabulary for the properties *)

Module Shapes.
Import Calendar Schema Py Processor.

(** The keys of a payload that hold its five sub-lists, in the order
    [process_response] reads them. *)
Definition event_keys : list string :=
  ["swaps"; "mints"; "burns"; "collects"; "flashed"]%string.

(** Every field of a swap record, against the element and transaction it
    was built from. *)
Definition swap_reads (dex_id : string) (t : BaseTransaction) (x : pyval)
    (r : SwapEvent) : Prop :=
  swap_parent_transaction r = t
  /\ swap_dex_id r = dex_id
  /\ getitem x "id" = Returns (swap_id r)
  /\ getpath x ["pool"; "token0"; "symbol"]%string = Returns (swap_token0_symbol r)
  /\ getpath x ["pool"; "token1"; "symbol"]%string = Returns (swap_token1_symbol r)
  /\ getpath x ["pool"; "token0"; "name"]%string = Returns (swap_token0_name r)
  /\ getpath x ["pool"; "token1"; "name"]%string = Returns (swap_token1_name r)
  /\ getpath x ["pool"; "token0"; "id"]%string = Returns (swap_token0_id r)
  /\ getpath x ["pool"; "token1"; "id"]%string = Returns (swap_token1_id r)
  /\ getitem x "sender" = Returns (swap_sender r)
  /\ getitem x "recipient" = Returns (swap_recipient r).

Definition liquidity_reads (dex_id : string) (t : BaseTransaction) (x : pyval)
    (r : LiquidityEvent) : Prop :=
  liq_parent_transaction r = t
  /\ liq_dex_id r = dex_id
  /\ getitem x "id" = Returns (liq_id r)
  /\ getpath x ["pool"; "token0"; "symbol"]%string = Returns (liq_token0_symbol r)
  /\ getpath x ["pool"; "token1"; "symbol"]%string = Returns (liq_token1_symbol r)
  /\ getpath x ["pool"; "token0"; "name"]%string = Returns (liq_token0_name r)
  /\ getpath x ["pool"; "token1"; "name"]%string = Returns (liq_token1_name r)
  /\ getpath x ["pool"; "token0"; "id"]%string = Returns (liq_token0_id r)
  /\ getpath x ["pool"; "token1"; "id"]%string = Returns (liq_token1_id r)
  /\ getitem x "owner" = Returns (liq_owner r).

(** The top-level values of a payload, as the parent transaction holds
    them. *)
Definition header_reads (dex_id : string) (py_int : pyval -> exn + Z)
    (v : pyval) (t : BaseTransaction) : Prop :=
  getitem v "id" = Returns (tx_id t)
  /\ tx_dex_id t = dex_id
  /\ (exists raw, getitem v "blockNumber" = Returns raw
                  /\ py_int raw = inr (tx_block_number t))
  /\ (exists raw, getitem v "timestamp" = Returns raw
                  /\ py_int raw = inr (tx_timestamp t))
  /\ getitem v "gasUsed" = Returns (tx_gas_used t)
  /\ getitem v "gasPrice" = Returns (tx_gas_price t).

(** The five collections of a batch result, concatenated over the events
    of its transactions. *)
Definition concat_events (evs : list Events) : Results :=
  (List.concat (map swaps evs), List.concat (map mints evs),
   List.concat (map burns evs),
   List.concat (map collects evs), List.concat (map flashs evs)).

(** *** Further samples *)

Module MoreSamples.
Import Samples.
Local Open Scope string_scope.

Definition dec_9999 : datetime := mk_datetime 9999 12 15 0 0 0 0.
Definition dec_2023 : datetime := mk_datetime 2023 12 31 23 59 59 0.
Definition feb_2024 : datetime := mk_datetime 2024 2 29 0 0 0 0.

Definition tx_header_only : pyval := PDict header.

Definition tx_null_mints : pyval :=
  PDict (header ++ [("swaps", PList [swap_full]); ("mints", PNone)]).

Definition good_batch : pyval :=
  PDict [("data", PDict [("transactions", PList [tx_swap; tx_collect])])].

Definition tokens_response : pyval :=
  PDict [("data", PDict [("tokens",
     PList [token "WETH" "Wrapped Ether" "0xc02a";
            token "USDC" "USD Coin" "0xa0b8"])])].

(** The parent transaction that the header above yields. *)
Definition sample_transaction : BaseTransaction :=
  mk_transaction (PStr "0xabc") uniswap_v3 18500000 1700000000
                 (PStr "21000") (PStr "30000000000").

(** A token listing whose second token has no name. *)
Definition nameless_token : pyval :=
  PDict [("id", PStr "0xdead"); ("symbol", PStr "DEAD")].

Definition bad_tokens_response : pyval :=
  PDict [("data", PDict [("tokens",
     PList [token "WETH" "Wrapped Ether" "0xc02a"; nameless_token;
            token "USDC" "USD Coin" "0xa0b8"])])].

(** Responses without usable data. *)
Definition error_items : list (string * pyval) :=
  [("errors", PList [PStr "timeout"])].

Definition empty_response : pyval := PDict error_items.

Definition null_data_items : list (string * pyval) :=
  [("data", PNone); ("errors", PList [PStr "indexing_error"])].

Definition null_data_response : pyval := PDict null_data_items.

Definition no_transactions_items : list (string * pyval) :=
  [("data", PDict [("tokens", PList [])])].

(** A query service that refuses every query with [e]. *)
Definition refuses (e : exn) (query : string)
    (variables : list (string * pyval)) : exn + pyval :=
  inl e.

(** A query service that answers every query with [response]. *)
Definition always (response : pyval) (query : string)
    (variables : list (string * pyval)) : exn + pyval :=
  inr response.

End MoreSamples.

End Shapes.

(** * Properties of the partition scheduler *)

Module SchemaProofs.
Import Calendar Schema.

Lemma between_spec lo x hi : between lo x hi = true <-> lo <= x <= hi.
Proof. unfold between. rewrite andb_true_iff, !Z.leb_le. tauto. Qed.

Lemma datetime_new_first y m :
  between MINYEAR y MAXYEAR = true -> between 1 m 12 = true ->
  datetime_new y m 1 = Returns (month_start (y, m)).
Proof.
  intros Hy Hm. unfold datetime_new. rewrite Hy, Hm. simpl.
  replace (between 1 1 (days_in_month y m)) with true; [reflexivity|].
  symmetry. apply between_spec. unfold days_in_month.
  repeat match goal with |- context [if ?b then _ else _] => destruct b end; lia.
Qed.

Lemma datetime_new_inv y m d r :
  datetime_new y m d = Returns r ->
  r = mk_datetime y m d 0 0 0 0 /\ between MINYEAR y MAXYEAR = true /\ between 1 m 12 = true.
Proof.
  unfold datetime_new.
  destruct (between MINYEAR y MAXYEAR); destruct (between 1 m 12);
    destruct (between 1 d (days_in_month y m)); simpl; intros H; inversion H; auto.
Qed.

Lemma datetime_new_raises y m d x :
  datetime_new y m d = Raises x -> x = ValueError.
Proof.
  unfold datetime_new.
  destruct (_ && _ && _); intros H; inversion H; reflexivity.
Qed.

Lemma datetime_new_finishes y m d : datetime_new y m d <> Unfinished.
Proof. unfold datetime_new. destruct (_ && _ && _); discriminate. Qed.

Lemma next_month_start_raises d x :
  next_month_start d = Raises x -> x = ValueError.
Proof.
  unfold next_month_start. destruct (month d =? 12); apply datetime_new_raises.
Qed.

Lemma next_month_start_finishes d : next_month_start d <> Unfinished.
Proof.
  unfold next_month_start. destruct (month d =? 12); apply datetime_new_finishes.
Qed.

Lemma succ_month_index ym : month_index (succ_month ym) = month_index ym + 1.
Proof.
  unfold succ_month, month_index. destruct ym as [y m]; cbn [fst snd].
  destruct (Z.eqb_spec m 12); cbn [fst snd]; lia.
Qed.

Lemma succ_month_valid ym :
  valid_month ym -> month_index ym < 12 * MAXYEAR + 12 -> valid_month (succ_month ym).
Proof.
  unfold succ_month, month_index, valid_month, MINYEAR, MAXYEAR.
  destruct ym as [y m]; cbn [fst snd].
  destruct (Z.eqb_spec m 12); cbn [fst snd]; lia.
Qed.

Lemma next_month_start_succ ym :
  valid_month ym -> month_index ym < 12 * MAXYEAR + 12 ->
  next_month_start (month_start ym) = Returns (month_start (succ_month ym)).
Proof.
  intros Hv Hlt. pose proof (succ_month_valid ym Hv Hlt) as [Hy Hm].
  unfold next_month_start, succ_month in *. destruct ym as [y m]; simpl in *.
  destruct (m =? 12); simpl in *; apply datetime_new_first; apply between_spec; lia.
Qed.

Lemma dt_ltb_month_start a b :
  valid_month a -> valid_month b ->
  dt_ltb (month_start a) (month_start b) = (month_index a <? month_index b).
Proof.
  destruct a as [y m], b as [y' m'].
  unfold valid_month, month_index; cbn [fst snd]. intros Ha Hb.
  change (dt_ltb (month_start (y, m)) (month_start (y', m')))
    with ((y <? y') || ((y =? y') && ((m <? m') || ((m =? m') && false)))).
  destruct (Z.ltb_spec y y'), (Z.eqb_spec y y'), (Z.ltb_spec m m'),
    (Z.eqb_spec m m'), (Z.ltb_spec (12 * y + m) (12 * y' + m'));
    simpl; try reflexivity; lia.
Qed.

Section Loop.
Variable timestamp : datetime -> Z.

Lemma int_timestamp_month_start ym :
  valid_month ym -> 13 < month_index ym ->
  int_timestamp timestamp (month_start ym) = Returns (timestamp (month_start ym)).
Proof.
  destruct ym as [y m]. unfold valid_month, month_index, MINYEAR.
  cbn [fst snd]. intros [Hy Hm] Hi.
  unfold int_timestamp, timestamp_refused, month_start, MINYEAR.
  cbn [year month day fst snd].
  destruct (Z.eqb_spec y 1), (Z.eqb_spec m 1); cbn [andb]; try reflexivity; lia.
Qed.

Lemma partition_loop_raises {Q} (emit : string -> string -> Z -> Z -> Q) budget :
  forall queries cur stop x,
    partition_loop timestamp emit budget queries cur stop = Raises x -> x = ValueError.
Proof.
  induction budget as [|b IH]; intros queries cur stop x; cbn [partition_loop];
    [discriminate|].
  destruct (dt_ltb cur stop); [|discriminate].
  destruct (next_month_start cur) as [nd|e|] eqn:Hn; cbn [bind].
  - unfold int_timestamp.
    destruct (timestamp_refused cur); cbn [bind]; [congruence|].
    destruct (timestamp_refused nd); cbn [bind]; [congruence|].
    apply IH.
  - intros H; inversion H; subst. eapply next_month_start_raises; eauto.
  - discriminate.
Qed.

Lemma partition_loop_render budget :
  forall specs cur stop,
    partition_loop timestamp query_text budget (map render specs) cur stop
    = omap (map render) (partition_loop timestamp mk_spec budget specs cur stop).
Proof.
  induction budget as [|b IH]; intros specs cur stop;
    cbn [partition_loop omap]; [reflexivity|].
  destruct (dt_ltb cur stop); [|reflexivity].
  destruct (next_month_start cur) as [nd|e|]; cbn [bind omap]; try reflexivity.
  unfold int_timestamp.
  destruct (timestamp_refused cur); cbn [bind omap]; [reflexivity|].
  destruct (timestamp_refused nd); cbn [bind omap]; [reflexivity|].
  rewrite <- IH. f_equal. rewrite map_app. reflexivity.
Qed.

Lemma partition_loop_months n :
  forall budget queries ym stop,
    valid_month ym -> valid_month stop ->
    13 < month_index ym ->
    n = Z.to_nat (month_index stop - month_index ym) ->
    (n < budget)%nat ->
    partition_loop timestamp mk_spec budget queries (month_start ym) (month_start stop)
    = Returns (queries ++ flat_map (specs_of_month timestamp) (months_from n ym)).
Proof.
  induction n as [|n IH]; intros budget queries ym stop Hym Hstop Hfirst Hn Hb;
    (destruct budget as [|b]; [lia|]); cbn [partition_loop];
    rewrite dt_ltb_month_start by assumption.
  - destruct (Z.ltb_spec (month_index ym) (month_index stop)); [lia|].
    rewrite app_nil_r. reflexivity.
  - destruct (Z.ltb_spec (month_index ym) (month_index stop)); [|lia].
    assert (Hlt : month_index ym < 12 * MAXYEAR + 12).
    { destruct Hstop. unfold month_index in *. lia. }
    pose proof (succ_month_valid ym Hym Hlt) as Hsv.
    pose proof (succ_month_index ym) as Hsi.
    rewrite next_month_start_succ by assumption. cbn [bind].
    rewrite (int_timestamp_month_start ym) by assumption. cbn [bind].
    rewrite (int_timestamp_month_start (succ_month ym)) by (try assumption; lia).
    cbn [bind].
    rewrite (IH b _ (succ_month ym) stop); try assumption; try lia.
    cbn [months_from flat_map]. rewrite <- app_assoc. reflexivity.
Qed.

(** The first pass of the loop from 0001-01-01 fails at [timestamp()]. *)
Lemma partition_loop_first_day {Q} (emit : string -> string -> Z -> Z -> Q)
    budget queries stop :
  valid_month stop -> 13 < month_index stop ->
  partition_loop timestamp emit (S budget) queries (month_start (MINYEAR, 1))
    (month_start stop)
  = Raises ValueError.
Proof.
  intros Hstop Hi. cbn [partition_loop].
  rewrite dt_ltb_month_start;
    [|unfold valid_month, MINYEAR, MAXYEAR; cbn [fst snd]; lia|assumption].
  destruct (Z.ltb_spec (month_index (MINYEAR, 1)) (month_index stop)) as [_|Hge];
    [reflexivity|].
  unfold month_index, MINYEAR in *. cbn [fst snd] in *. lia.
Qed.

End Loop.

Lemma valid_datetime_month d :
  valid_datetime d = true -> valid_month (year d, month d).
Proof.
  unfold valid_datetime, valid_month. rewrite !andb_true_iff, !between_spec.
  cbn [fst snd]. tauto.
Qed.

Lemma in_last_month_false d :
  valid_datetime d = true -> in_last_month d = false ->
  month_index (year d, month d) < 12 * MAXYEAR + 12.
Proof.
  intros Hv Hl. apply valid_datetime_month in Hv. destruct Hv as [Hy Hm].
  unfold in_last_month in Hl. unfold month_index, MINYEAR, MAXYEAR in *.
  cbn [fst snd] in *.
  destruct (Z.eqb_spec (year d) 9999), (Z.eqb_spec (month d) 12);
    cbn [andb] in Hl; try discriminate; lia.
Qed.

(** The run of [get_partition_queries] on datetimes whose end month has a
    successor: the specs of the months from that of [s] to that of [e]. *)
Lemma in_first_month_false d :
  valid_datetime d = true -> in_first_month d = false ->
  13 < month_index (year d, month d).
Proof.
  intros Hv Hf. apply valid_datetime_month in Hv. destruct Hv as [Hy Hm].
  unfold in_first_month in Hf. unfold month_index, MINYEAR, MAXYEAR in *.
  cbn [fst snd] in *.
  destruct (Z.eqb_spec (year d) 1), (Z.eqb_spec (month d) 1);
    cbn [andb] in Hf; try discriminate; lia.
Qed.

Lemma get_partition_specs_months timestamp s e i :
  valid_datetime s = true -> valid_datetime e = true ->
  in_last_month e = false -> in_first_month s = false ->
  get_partition_specs timestamp s e i = Returns (expected_specs timestamp s e).
Proof.
  intros Hs He Hl Hf.
  pose proof (in_first_month_false s Hs Hf) as Hfirst.
  pose proof (valid_datetime_month s Hs) as Hms.
  pose proof (valid_datetime_month e He) as Hme.
  pose proof (in_last_month_false e He Hl) as Hlt.
  unfold get_partition_specs, partition_queries_with.
  rewrite datetime_new_first by (apply between_spec; apply Hms).
  cbn [bind].
  assert (Hn : next_month_start e = Returns (month_start (succ_month (year e, month e)))).
  { rewrite <- (next_month_start_succ _ Hme Hlt). reflexivity. }
  rewrite Hn. cbn [bind].
  pose proof (succ_month_valid _ Hme Hlt) as Hse.
  pose proof (succ_month_index (year e, month e)) as Hie.
  rewrite (partition_loop_months timestamp (month_count s e)); try assumption.
  - reflexivity.
  - unfold month_count. rewrite Hie. unfold month_index. cbn [fst snd].
    f_equal. lia.
  - unfold loop_budget, month_count.
    destruct Hse as [Hy Hm]. unfold month_index in Hie.
    destruct Hms as [_ Hms], Hme as [_ Hme].
    cbn [fst snd year month month_start] in *. lia.
Qed.

Lemma get_partition_queries_render timestamp s e i :
  get_partition_queries timestamp s e i
  = omap (map render) (get_partition_specs timestamp s e i).
Proof.
  unfold get_partition_queries, get_partition_specs, partition_queries_with.
  destruct (datetime_new (year s) (month s) 1); cbn [bind omap]; try reflexivity.
  destruct (next_month_start e); cbn [bind omap]; try reflexivity.
  apply (partition_loop_render timestamp _ []).
Qed.

Lemma dt_ltb_year a b : dt_ltb a b = true -> year a <= year b.
Proof.
  unfold dt_ltb, fields. cbn [lex_ltb].
  destruct (Z.ltb_spec (year a) (year b)), (Z.eqb_spec (year a) (year b));
    cbn [orb andb]; intros; try discriminate; lia.
Qed.

Lemma dt_ltb_month_index a b :
  valid_datetime a = true -> valid_datetime b = true -> dt_ltb a b = true ->
  month_index (year a, month a) <= month_index (year b, month b).
Proof.
  intros Ha Hb. apply valid_datetime_month in Ha, Hb.
  destruct Ha as [_ Ha], Hb as [_ Hb].
  unfold dt_ltb, fields, month_index. cbn [lex_ltb fst snd] in *.
  destruct (Z.ltb_spec (year a) (year b)), (Z.eqb_spec (year a) (year b)),
    (Z.ltb_spec (month a) (month b)), (Z.eqb_spec (month a) (month b));
    cbn [orb andb]; intros; try discriminate; lia.
Qed.

Section Termination.
Variable timestamp : datetime -> Z.
Context {Q : Type}.
Variable emit : string -> string -> Z -> Z -> Q.

Lemma partition_loop_finishes budget :
  forall queries cur stop,
    (Z.to_nat (12 * (year stop - year cur) + 13 - month cur) < budget)%nat ->
    partition_loop timestamp emit budget queries cur stop <> Unfinished.
Proof.
  induction budget as [|b IH]; intros queries cur stop Hb; [lia|].
  cbn [partition_loop].
  destruct (dt_ltb cur stop) eqn:Hlt; [|discriminate].
  apply dt_ltb_year in Hlt.
  destruct (next_month_start cur) as [nd|x|] eqn:Hn; cbn [bind].
  - unfold int_timestamp.
    destruct (timestamp_refused cur); cbn [bind]; [discriminate|].
    destruct (timestamp_refused nd); cbn [bind]; [discriminate|].
    apply IH. unfold next_month_start in Hn.
    destruct (Z.eqb_spec (month cur) 12) as [Hm|Hm];
      apply datetime_new_inv in Hn; destruct Hn as (-> & Hy & Hmm);
      apply between_spec in Hy, Hmm; cbn [year month]; lia.
  - discriminate.
  - exfalso. eapply next_month_start_finishes; eauto.
Qed.

Lemma partition_queries_with_finishes s e i :
  partition_queries_with timestamp emit s e i <> Unfinished.
Proof.
  unfold partition_queries_with.
  destruct (datetime_new (year s) (month s) 1) as [s'|x|] eqn:Hs; cbn [bind];
    [|discriminate|exfalso; eapply datetime_new_finishes; eauto].
  destruct (next_month_start e) as [e'|x|] eqn:He; cbn [bind];
    [|discriminate|exfalso; eapply next_month_start_finishes; eauto].
  apply partition_loop_finishes. unfold loop_budget. lia.
Qed.

Lemma partition_queries_with_raises s e i x :
  partition_queries_with timestamp emit s e i = Raises x -> x = ValueError.
Proof.
  unfold partition_queries_with.
  destruct (datetime_new (year s) (month s) 1) as [s'|y|] eqn:Hs; cbn [bind].
  - destruct (next_month_start e) as [e'|y|] eqn:He; cbn [bind].
    + apply partition_loop_raises.
    + intros H; inversion H; subst. eapply next_month_start_raises; eauto.
    + discriminate.
  - intros H; inversion H; subst. eapply datetime_new_raises; eauto.
  - discriminate.
Qed.

End Termination.

(** *** Coverage of a chain of months *)

Lemma covering_app tb t a b :
  covering tb t (a ++ b) = (covering tb t a + covering tb t b)%nat.
Proof. unfold covering. rewrite filter_app, length_app. reflexivity. Qed.

Lemma covering_month ts tb t ym :
  In tb base_tables ->
  covering tb t (specs_of_month ts ym)
  = if (ts (month_start ym) <=? t) && (t <? ts (month_start (succ_month ym)))
    then 1%nat else 0%nat.
Proof.
  intros Hin. unfold covering, specs_of_month, in_range, of_table.
  cbn [base_tables map filter table range_start range_end].
  destruct ((ts (month_start ym) <=? t) && (t <? ts (month_start (succ_month ym))));
    cbn in Hin; destruct Hin as [<-|[<-|[<-|[]]]]; reflexivity.
Qed.

Lemma month_after_index n :
  forall ym, month_index (month_after n ym) = month_index ym + Z.of_nat n.
Proof.
  induction n as [|n IH]; intros ym; cbn [month_after]; [lia|].
  rewrite IH, succ_month_index. lia.
Qed.

Lemma month_after_valid n :
  forall ym, valid_month ym ->
    month_index ym + Z.of_nat n <= 12 * MAXYEAR + 12 ->
    valid_month (month_after n ym).
Proof.
  induction n as [|n IH]; intros ym Hv Hb; cbn [month_after]; [assumption|].
  apply IH.
  - apply succ_month_valid; [assumption|lia].
  - rewrite succ_month_index. lia.
Qed.

Lemma valid_month_index_inj a b :
  valid_month a -> valid_month b -> month_index a = month_index b -> a = b.
Proof.
  destruct a as [y m], b as [y' m']. unfold valid_month, month_index.
  cbn [fst snd]. intros Ha Hb H.
  assert (y = y') by lia. assert (m = m') by lia. subst. reflexivity.
Qed.

Lemma month_start_step ts ym :
  month_starts_increase ts -> valid_month ym ->
  month_index ym < 12 * MAXYEAR + 12 ->
  ts (month_start ym) < ts (month_start (succ_month ym)).
Proof.
  intros Hmono Hv Hlt. destruct ym as [y m]. destruct Hv as [Hy Hm].
  cbn [fst snd] in *.
  apply Hmono; try (apply between_spec; assumption).
  pose proof (succ_month_valid (y, m) (conj Hy Hm) Hlt) as [H _]. lia.
Qed.

Lemma month_starts_le ts n :
  month_starts_increase ts ->
  forall ym, valid_month ym ->
    month_index ym + Z.of_nat n <= 12 * MAXYEAR + 12 ->
    ts (month_start ym) <= ts (month_start (month_after n ym)).
Proof.
  intros Hmono. induction n as [|n IH]; intros ym Hv Hb; cbn [month_after]; [lia|].
  pose proof (month_start_step ts ym Hmono Hv ltac:(lia)).
  assert (ts (month_start (succ_month ym))
          <= ts (month_start (month_after n (succ_month ym)))).
  { apply IH; [apply succ_month_valid; [assumption|lia]|].
    rewrite succ_month_index. lia. }
  lia.
Qed.

Lemma covering_months ts tb t n :
  month_starts_increase ts -> In tb base_tables ->
  forall ym, valid_month ym ->
    month_index ym + Z.of_nat n <= 12 * MAXYEAR + 12 ->
    covering tb t (flat_map (specs_of_month ts) (months_from n ym))
    = if (ts (month_start ym) <=? t) && (t <? ts (month_start (month_after n ym)))
      then 1%nat else 0%nat.
Proof.
  intros Hmono Hin. induction n as [|n IH]; intros ym Hv Hb;
    cbn [months_from flat_map month_after].
  - destruct (Z.leb_spec (ts (month_start ym)) t), (Z.ltb_spec t (ts (month_start ym)));
      cbn [andb]; try reflexivity; lia.
  - rewrite covering_app, covering_month by assumption.
    rewrite IH;
      [|apply succ_month_valid; [assumption|lia]|rewrite succ_month_index; lia].
    pose proof (month_start_step ts ym Hmono Hv ltac:(lia)).
    pose proof (month_starts_le ts n Hmono (succ_month ym)
                  ltac:(apply succ_month_valid; [assumption|lia])
                  ltac:(rewrite succ_month_index; lia)).
    destruct (Z.leb_spec (ts (month_start ym)) t),
      (Z.ltb_spec t (ts (month_start (succ_month ym)))),
      (Z.leb_spec (ts (month_start (succ_month ym))) t),
      (Z.ltb_spec t (ts (month_start (month_after n (succ_month ym)))));
      cbn [andb]; try reflexivity; lia.
Qed.

Lemma length_flat_map_specs ts ms :
  List.length (flat_map (specs_of_month ts) ms) = (3 * List.length ms)%nat.
Proof.
  induction ms as [|ym ms IH]; [reflexivity|].
  cbn [flat_map]. rewrite length_app, IH. cbn. lia.
Qed.

Lemma length_months_from n : forall ym, List.length (months_from n ym) = n.
Proof. induction n; intros; cbn; auto. Qed.

(** *** The UTC reading of [timestamp()] orders month starts *)

Lemma days_before_year_step y :
  days_before_year y + 364 <= days_before_year (y + 1).
Proof.
  unfold days_before_year. cbv zeta.
  replace (y + 1 - 1) with (y - 1 + 1) by lia.
  generalize (y - 1). intros p.
  Z.div_mod_to_equations. lia.
Qed.

Ltac table_lookup :=
  repeat match goal with
  | |- context [nth ?n DAYS_BEFORE_MONTH 0] =>
      let v := eval vm_compute in (nth n DAYS_BEFORE_MONTH 0) in
      change (nth n DAYS_BEFORE_MONTH 0) with v
  end.

Lemma utc_month_starts_increase : month_starts_increase utc_timestamp.
Proof.
  intros y m Hy Hm _. apply between_spec in Hy, Hm.
  unfold utc_timestamp, month_start, succ_month. cbn [fst snd].
  destruct (Z.eqb_spec m 12) as [->|Hne];
    cbn [year month day hour minute second fst snd]; unfold ymd2ord.
  - pose proof (days_before_year_step y).
    unfold days_before_month. table_lookup. cbn [Z.ltb Z.compare Pos.compare Pos.compare_cont andb].
    destruct (is_leap y), (is_leap (y + 1)); lia.
  - assert (Hc : m = 1 \/ m = 2 \/ m = 3 \/ m = 4 \/ m = 5 \/ m = 6 \/ m = 7
                 \/ m = 8 \/ m = 9 \/ m = 10 \/ m = 11) by lia.
    unfold days_before_month.
    repeat (destruct Hc as [->|Hc];
            [table_lookup; cbn [Z.ltb Z.compare Pos.compare Pos.compare_cont andb Z.add Pos.add Pos.succ];
             destruct (is_leap y); lia|]).
    subst m. table_lookup. cbn [Z.ltb Z.compare Pos.compare Pos.compare_cont andb Z.add Pos.add Pos.succ].
    destruct (is_leap y); lia.
Qed.

Lemma dt_ltb_month_start_lex y m y' m' :
  dt_ltb (month_start (y, m)) (month_start (y', m'))
  = (y <? y') || ((y =? y') && (m <? m')).
Proof.
  change (dt_ltb (month_start (y, m)) (month_start (y', m')))
    with ((y <? y') || ((y =? y') && ((m <? m') || ((m =? m') && false)))).
  rewrite andb_false_r, orb_false_r. reflexivity.
Qed.

(** The month after December 9999 would be in year 10000, later than the
    start of any month of the calendar. *)
Lemma floor_before_year_10000 s e :
  valid_datetime s = true -> in_last_month e = true ->
  dt_ltb (floor_to_month s) (ceil_to_month e) = true.
Proof.
  intros Hs Hl. apply valid_datetime_month in Hs. destruct Hs as [Hy _].
  unfold in_last_month in Hl. apply andb_true_iff in Hl. destruct Hl as [Hye Hme].
  apply Z.eqb_eq in Hye, Hme.
  unfold floor_to_month, ceil_to_month, succ_month. cbn [fst snd] in *.
  rewrite Hye, Hme. cbn [Z.eqb Pos.eqb fst snd].
  rewrite dt_ltb_month_start_lex.
  unfold MINYEAR, MAXYEAR in *.
  destruct (Z.ltb_spec (year s) (9999 + 1)); [reflexivity|lia].
Qed.

Lemma get_partition_queries_raises ts s e i x :
  get_partition_queries ts s e i = Raises x -> x = ValueError.
Proof. apply partition_queries_with_raises. Qed.

Lemma get_partition_queries_finishes ts s e i :
  get_partition_queries ts s e i <> Unfinished.
Proof. apply partition_queries_with_finishes. Qed.

Lemma end_in_last_month_raises ts {Q : Type} (emit : string -> string -> Z -> Z -> Q)
    s e i :
  valid_datetime s = true -> in_last_month e = true ->
  partition_queries_with ts emit s e i = Raises ValueError.
Proof.
  intros Hs Hl. pose proof (valid_datetime_month s Hs) as Hms.
  unfold in_last_month in Hl. apply andb_true_iff in Hl.
  destruct Hl as [Hy Hm]. apply Z.eqb_eq in Hy, Hm.
  unfold partition_queries_with.
  rewrite datetime_new_first by (apply between_spec; apply Hms).
  cbn [bind]. unfold next_month_start. rewrite Hm, Hy. reflexivity.
Qed.

(** A window that starts in January of year 1 makes the first pass of the
    loop call [timestamp()] on 0001-01-01. *)
Lemma start_in_first_month_raises ts {Q : Type}
    (emit : string -> string -> Z -> Z -> Q) s e i :
  valid_datetime s = true -> valid_datetime e = true ->
  in_last_month e = false -> in_first_month s = true ->
  partition_queries_with ts emit s e i = Raises ValueError.
Proof.
  intros Hs He Hl Hf.
  pose proof (valid_datetime_month s Hs) as Hms.
  pose proof (valid_datetime_month e He) as Hme.
  pose proof (in_last_month_false e He Hl) as Hmax.
  unfold in_first_month in Hf. apply andb_true_iff in Hf.
  destruct Hf as [Hy Hm]. apply Z.eqb_eq in Hy, Hm.
  unfold partition_queries_with.
  rewrite datetime_new_first by (apply between_spec; apply Hms).
  cbn [bind].
  replace (next_month_start e)
    with (Returns (month_start (succ_month (year e, month e))))
    by (rewrite <- (next_month_start_succ _ Hme Hmax); reflexivity).
  cbn [bind]. unfold loop_budget. rewrite Hy, Hm.
  apply partition_loop_first_day.
  - apply succ_month_valid; assumption.
  - rewrite succ_month_index. destruct Hme as [Hye Hmme].
    unfold month_index, MINYEAR in *. cbn [fst snd] in *. lia.
Qed.

(** A run that returns started after January of year 1 and ended before
    December 9999. *)
Lemma returned_specs_window ts s e i specs :
  valid_datetime s = true -> valid_datetime e = true ->
  get_partition_specs ts s e i = Returns specs ->
  in_last_month e = false /\ in_first_month s = false.
Proof.
  intros Hs He Hret. unfold get_partition_specs in Hret.
  destruct (in_last_month e) eqn:Hl.
  - rewrite (end_in_last_month_raises ts mk_spec s e i Hs Hl) in Hret.
    discriminate Hret.
  - split; [reflexivity|]. destruct (in_first_month s) eqn:Hf; [|reflexivity].
    rewrite (start_in_first_month_raises ts mk_spec s e i Hs He Hl Hf) in Hret.
    discriminate Hret.
Qed.

Lemma bounds_specs_of_month ts ym :
  map bounds (specs_of_month ts ym) = bounds_of_month ts ym.
Proof. reflexivity. Qed.

Lemma bounds_flat_map ts ms :
  map bounds (flat_map (specs_of_month ts) ms) = flat_map (bounds_of_month ts) ms.
Proof.
  induction ms as [|ym ms IH]; [reflexivity|].
  cbn [flat_map]. rewrite map_app, IH, bounds_specs_of_month. reflexivity.
Qed.

(** C1.  For every window of valid datetimes with [s < e] on which the
    method can run (the end not in December 9999, whose following month
    the datetime constructor refuses, and the start not in January of
    year 1, whose month start [timestamp()] refuses), and a [timestamp]
    that orders month starts: [get_partition_queries] returns the
    statements of the specs of the consecutive months from the month of
    [s] to the month of [e], three per month (one per base table, in the
    order swaps, mints, burns), each with the half-open range from its
    month start to the next month start, and, from year 1000 on, named
    [{table}_p{YYYY_MM}]; there is at least one month, the number of specs
    is three times the number of months, and for each base table every
    instant [t] lies in the range of exactly one spec when it is in
    [[floor_to_month s, ceil_to_month e)] and of none otherwise. *)
Theorem partitions_cover_window ts (s e : datetime) (i : timedelta) :
  valid_datetime s = true -> valid_datetime e = true ->
  dt_ltb s e = true ->
  in_last_month e = false ->
  in_first_month s = false ->
  month_starts_increase ts ->
  exists specs,
    get_partition_specs ts s e i = Returns specs
    /\ get_partition_queries ts s e i = Returns (map render specs)
    /\ map bounds specs
       = flat_map (bounds_of_month ts)
           (months_from (month_count s e) (year s, month s))
    /\ (1000 <= year s ->
        specs = flat_map (specs_of_month ts)
                  (months_from (month_count s e) (year s, month s)))
    /\ (1 <= month_count s e)%nat
    /\ List.length specs = (3 * month_count s e)%nat
    /\ forall tb t, In tb base_tables ->
         covering tb t specs
         = if (ts (floor_to_month s) <=? t) && (t <? ts (ceil_to_month e))
           then 1%nat else 0%nat.
Proof.
  intros Hs He Hlt Hl Hf Hmono.
  pose proof (get_partition_specs_months ts s e i Hs He Hl Hf) as Hspecs.
  pose proof (dt_ltb_month_index s e Hs He Hlt) as Hidx.
  pose proof (valid_datetime_month s Hs) as Hms.
  pose proof (valid_datetime_month e He) as Hme.
  pose proof (in_last_month_false e He Hl) as Hmax.
  assert (Hcount : Z.of_nat (month_count s e)
                   = month_index (year e, month e) - month_index (year s, month s) + 1).
  { unfold month_count, month_index in *. cbn [fst snd] in *. lia. }
  exists (expected_specs ts s e).
  split; [assumption|].
  split; [rewrite get_partition_queries_render, Hspecs; reflexivity|].
  split; [apply bounds_flat_map|].
  split; [intros _; reflexivity|].
  split; [lia|].
  split.
  - unfold expected_specs.
    rewrite length_flat_map_specs, length_months_from. reflexivity.
  - intros tb t Hin. unfold expected_specs.
    rewrite covering_months; try assumption; [|lia].
    replace (month_after (month_count s e) (year s, month s))
      with (succ_month (year e, month e)); [reflexivity|].
    apply valid_month_index_inj.
    + apply succ_month_valid; assumption.
    + apply month_after_valid; [assumption|lia].
    + rewrite month_after_index, succ_month_index. lia.
Qed.

Lemma partitions_cover_window_witness :
  exists specs,
    get_partition_specs utc_timestamp nov_2023 jan_2024 thirty_days = Returns specs
    /\ get_partition_queries utc_timestamp nov_2023 jan_2024 thirty_days
       = Returns (map render specs)
    /\ map bounds specs
       = flat_map (bounds_of_month utc_timestamp)
           (months_from (month_count nov_2023 jan_2024)
              (year nov_2023, month nov_2023))
    /\ (1000 <= year nov_2023 ->
        specs = flat_map (specs_of_month utc_timestamp)
                  (months_from (month_count nov_2023 jan_2024)
                     (year nov_2023, month nov_2023)))
    /\ (1 <= month_count nov_2023 jan_2024)%nat
    /\ List.length specs = (3 * month_count nov_2023 jan_2024)%nat
    /\ forall tb t, In tb base_tables ->
         covering tb t specs
         = if (utc_timestamp (floor_to_month nov_2023) <=? t)
              && (t <? utc_timestamp (ceil_to_month jan_2024))
           then 1%nat else 0%nat.
Proof.
  apply (partitions_cover_window utc_timestamp nov_2023 jan_2024 thirty_days);
    try reflexivity.
  exact utc_month_starts_increase.
Defined.

(** C7.  A window that starts in November of a year [Y] from 1000 on and
    ends in January of year [Y + 1] yields, for each base table, the
    partitions named [{table}_p{Y}_11], [{table}_p{Y}_12] and
    [{table}_p{Y+1}_01], the year written with its four digits and the
    month with two, December being followed by January of the next
    year. *)
Theorem year_boundary_names ts (Y : Z) (s e : datetime) (i : timedelta) :
  valid_datetime s = true -> valid_datetime e = true ->
  1000 <= Y ->
  year s = Y -> month s = 11 -> year e = Y + 1 -> month e = 1 ->
  exists specs,
    get_partition_specs ts s e i = Returns specs
    /\ get_partition_queries ts s e i = Returns (map render specs)
    /\ map table specs
       = ["swaps"; "mints"; "burns"; "swaps"; "mints"; "burns";
          "swaps"; "mints"; "burns"]%string
    /\ map name specs
       = [ "swaps_p" ++ zero_pad 4 (str_of_Z Y) ++ "_11";
           "mints_p" ++ zero_pad 4 (str_of_Z Y) ++ "_11";
           "burns_p" ++ zero_pad 4 (str_of_Z Y) ++ "_11";
           "swaps_p" ++ zero_pad 4 (str_of_Z Y) ++ "_12";
           "mints_p" ++ zero_pad 4 (str_of_Z Y) ++ "_12";
           "burns_p" ++ zero_pad 4 (str_of_Z Y) ++ "_12";
           "swaps_p" ++ zero_pad 4 (str_of_Z (Y + 1)) ++ "_01";
           "mints_p" ++ zero_pad 4 (str_of_Z (Y + 1)) ++ "_01";
           "burns_p" ++ zero_pad 4 (str_of_Z (Y + 1)) ++ "_01" ]%string.
Proof.
  intros Hs He HY Hys Hms Hye Hme.
  assert (Hl : in_last_month e = false).
  { unfold in_last_month. rewrite Hme. apply andb_false_r. }
  assert (Hf : in_first_month s = false).
  { unfold in_first_month. rewrite Hms. apply andb_false_r. }
  pose proof (get_partition_specs_months ts s e i Hs He Hl Hf) as Hspecs.
  exists (expected_specs ts s e). split; [assumption|]. split.
  { rewrite get_partition_queries_render, Hspecs. reflexivity. }
  unfold expected_specs, month_count. rewrite Hys, Hms, Hye, Hme.
  replace (12 * (Y + 1 - Y) + (1 - 11) + 1) with 3 by lia.
  split; reflexivity.
Qed.

Lemma year_boundary_names_witness :
  exists specs,
    get_partition_specs utc_timestamp nov_2023 jan_2024 one_day = Returns specs
    /\ get_partition_queries utc_timestamp nov_2023 jan_2024 one_day
       = Returns (map render specs)
    /\ map table specs
       = ["swaps"; "mints"; "burns"; "swaps"; "mints"; "burns";
          "swaps"; "mints"; "burns"]%string
    /\ map name specs
       = [ "swaps_p2023_11"; "mints_p2023_11"; "burns_p2023_11";
           "swaps_p2023_12"; "mints_p2023_12"; "burns_p2023_12";
           "swaps_p2024_01"; "mints_p2024_01"; "burns_p2024_01" ]%string.
Proof.
  apply (year_boundary_names utc_timestamp 2023 nov_2023 jan_2024 one_day);
    try reflexivity.
  lia.
Defined.

(** C8.  When the end, rounded up to the start of the month after its own,
    is not after the start rounded down to the start of its month,
    [get_partition_queries] returns the empty list and raises nothing. *)
Theorem empty_when_end_not_after_start ts (s e : datetime) (i : timedelta) :
  valid_datetime s = true -> valid_datetime e = true ->
  dt_ltb (floor_to_month s) (ceil_to_month e) = false ->
  get_partition_queries ts s e i = Returns [].
Proof.
  intros Hs He Hle.
  assert (Hl : in_last_month e = false).
  { destruct (in_last_month e) eqn:Hl; [|reflexivity].
    rewrite (floor_before_year_10000 s e Hs Hl) in Hle. discriminate Hle. }
  pose proof (valid_datetime_month s Hs) as Hms.
  pose proof (valid_datetime_month e He) as Hme.
  pose proof (in_last_month_false e He Hl) as Hmax.
  unfold get_partition_queries, partition_queries_with.
  rewrite datetime_new_first by (apply between_spec; apply Hms).
  cbn [bind].
  replace (next_month_start e)
    with (Returns (month_start (succ_month (year e, month e))))
    by (rewrite <- (next_month_start_succ _ Hme Hmax); reflexivity).
  cbn [bind]. unfold loop_budget. cbn [partition_loop].
  unfold floor_to_month, ceil_to_month in Hle. rewrite Hle. reflexivity.
Qed.

Lemma empty_when_end_not_after_start_witness :
  get_partition_queries utc_timestamp mar_2024 jan_2024 thirty_days = Returns [].
Proof.
  apply (empty_when_end_not_after_start utc_timestamp mar_2024 jan_2024 thirty_days);
    reflexivity.
Defined.

(** C9, as stated, fails: no window, inverted or not, makes
    [get_partition_queries] raise [PartitionRangeError]. *)
Lemma no_partition_range_error :
  ~ exists ts s e i,
      valid_datetime s = true /\ valid_datetime e = true
      /\ dt_ltb e s = true
      /\ get_partition_queries ts s e i = Raises PartitionRangeError.
Proof.
  intros (ts & s & e & i & _ & _ & _ & H).
  apply get_partition_queries_raises in H. discriminate.
Qed.

(** C9, amended.  For every window of valid datetimes with [e < s],
    [get_partition_queries] does not raise [PartitionRangeError].  When
    [e] lies in December 9999 or [s] in January of year 1 it raises
    [ValueError].  Otherwise it returns normally: when [s] and [e] are in
    the same month, the three statements of that month, for swaps, mints
    and burns, each with the range from the month start to the next month
    start and, from year 1000 on, the name [{table}_p{YYYY_MM}]; the
    empty list when they are in different months. *)
Theorem inverted_window_returns ts (s e : datetime) (i : timedelta) :
  valid_datetime s = true -> valid_datetime e = true ->
  dt_ltb e s = true ->
  get_partition_queries ts s e i <> Raises PartitionRangeError
  /\ (in_last_month e = true \/ in_first_month s = true ->
      get_partition_queries ts s e i = Raises ValueError)
  /\ (in_last_month e = false -> in_first_month s = false ->
      exists specs,
        get_partition_specs ts s e i = Returns specs
        /\ get_partition_queries ts s e i = Returns (map render specs)
        /\ map bounds specs
           = (if same_month s e then bounds_of_month ts (year s, month s) else [])
        /\ (1000 <= year s ->
            specs = if same_month s e
                    then specs_of_month ts (year s, month s) else [])).
Proof.
  intros Hs He Hlt. split; [|split].
  - intros H. apply get_partition_queries_raises in H. discriminate.
  - intros Hedge. destruct (in_last_month e) eqn:Hl.
    + exact (end_in_last_month_raises ts query_text s e i Hs Hl).
    + destruct Hedge as [Hedge|Hf]; [discriminate|].
      exact (start_in_first_month_raises ts query_text s e i Hs He Hl Hf).
  - intros Hl Hf.
    pose proof (dt_ltb_month_index e s He Hs Hlt) as Hidx.
    pose proof (valid_datetime_month s Hs) as [_ Hms].
    pose proof (valid_datetime_month e He) as [_ Hme].
    assert (Hexp : expected_specs ts s e
                   = if same_month s e
                     then specs_of_month ts (year s, month s) else []).
    { unfold expected_specs, month_count, same_month, month_index in *.
      cbn [fst snd] in *.
      destruct (Z.eqb_spec (year s) (year e)) as [Hy|Hy];
        destruct (Z.eqb_spec (month s) (month e)) as [Hm|Hm]; cbn [andb].
      - rewrite Hy, Hm.
        replace (12 * (year e - year e) + (month e - month e) + 1) with 1 by lia.
        cbn [Z.to_nat Pos.to_nat Pos.iter_op Nat.add months_from flat_map].
        apply app_nil_r.
      - replace (Z.to_nat _) with 0%nat by lia. reflexivity.
      - replace (Z.to_nat _) with 0%nat by lia. reflexivity.
      - replace (Z.to_nat _) with 0%nat by lia. reflexivity. }
    exists (expected_specs ts s e).
    split; [apply get_partition_specs_months; assumption|].
    split.
    { rewrite get_partition_queries_render,
        (get_partition_specs_months ts s e i Hs He Hl Hf). reflexivity. }
    split; [|intros _; exact Hexp].
    rewrite Hexp. destruct (same_month s e); reflexivity.
Qed.

Lemma inverted_window_returns_witness :
  get_partition_queries utc_timestamp jan_20_2024 jan_2024 thirty_days
    <> Raises PartitionRangeError
  /\ get_partition_queries utc_timestamp jan_20_year_1 jan_3_year_1 thirty_days
     = Raises ValueError
  /\ exists specs,
       get_partition_specs utc_timestamp jan_20_2024 jan_2024 thirty_days
         = Returns specs
       /\ get_partition_queries utc_timestamp jan_20_2024 jan_2024 thirty_days
          = Returns (map render specs)
       /\ map bounds specs = bounds_of_month utc_timestamp (2024, 1)
       /\ map name specs
          = ["swaps_p2024_01"; "mints_p2024_01"; "burns_p2024_01"]%string.
Proof.
  split; [|split].
  - apply (inverted_window_returns utc_timestamp jan_20_2024 jan_2024 thirty_days);
      reflexivity.
  - apply (inverted_window_returns utc_timestamp jan_20_year_1 jan_3_year_1
             thirty_days); try reflexivity.
    right. reflexivity.
  - destruct (proj2 (proj2 (inverted_window_returns utc_timestamp jan_20_2024
                              jan_2024 thirty_days eq_refl eq_refl eq_refl))
                eq_refl eq_refl) as (specs & H1 & H2 & H3 & H4).
    exists specs. split; [exact H1|]. split; [exact H2|]. split; [exact H3|].
    rewrite (H4 ltac:(cbn; lia)). reflexivity.
Defined.

(** C10.  The [interval] argument has no effect: for every start and end,
    any two intervals give the same result, statements and partition
    values alike; and whatever the interval, on every window on which the
    method can run the partitions are those of the calendar months from
    the month of the start to the month of the end. *)
Theorem interval_ignored ts (s e : datetime) (i1 i2 : timedelta) :
  get_partition_queries ts s e i1 = get_partition_queries ts s e i2
  /\ get_partition_specs ts s e i1 = get_partition_specs ts s e i2
  /\ (valid_datetime s = true -> valid_datetime e = true ->
      in_last_month e = false -> in_first_month s = false ->
      exists specs,
        get_partition_specs ts s e i1 = Returns specs
        /\ get_partition_queries ts s e i1 = Returns (map render specs)
        /\ map bounds specs = expected_bounds ts s e
        /\ (1000 <= year s -> specs = expected_specs ts s e)).
Proof.
  split; [reflexivity|]. split; [reflexivity|].
  intros Hs He Hl Hf.
  exists (expected_specs ts s e).
  split; [apply get_partition_specs_months; assumption|].
  split.
  { rewrite get_partition_queries_render,
      (get_partition_specs_months ts s e i1 Hs He Hl Hf). reflexivity. }
  split; [apply bounds_flat_map|intros _; reflexivity].
Qed.

Lemma interval_ignored_witness :
  get_partition_queries utc_timestamp nov_2023 jan_2024 one_day
    = get_partition_queries utc_timestamp nov_2023 jan_2024 thirty_days
  /\ exists specs,
       get_partition_specs utc_timestamp nov_2023 jan_2024 one_day = Returns specs
       /\ get_partition_queries utc_timestamp nov_2023 jan_2024 one_day
          = Returns (map render specs)
       /\ map bounds specs = expected_bounds utc_timestamp nov_2023 jan_2024
       /\ specs = expected_specs utc_timestamp nov_2023 jan_2024.
Proof.
  split.
  - apply (interval_ignored utc_timestamp nov_2023 jan_2024 one_day thirty_days).
  - destruct (proj2 (proj2 (interval_ignored utc_timestamp nov_2023 jan_2024
                              one_day thirty_days))
                eq_refl eq_refl eq_refl eq_refl) as (specs & H1 & H2 & H3 & H4).
    exists specs. split; [exact H1|]. split; [exact H2|]. split; [exact H3|].
    apply H4. cbn. lia.
Defined.

End SchemaProofs.

(** * Properties of the processor *)

Module ProcessorProofs.
Import Py Processor.

(** Split a hypothesis [x <- c ;; k = Returns r] into [c = Returns x] and
    the rest. *)
Ltac bind_inv H :=
  repeat match type of H with
  | bind ?c _ = Returns _ =>
      let E := fresh "E" in
      destruct c eqn:E; cbn [bind] in H; try discriminate H
  end.

Lemma for_each_Forall2 {A B} (f : A -> outcome B) xs :
  forall ys, for_each f xs = Returns ys ->
    Forall2 (fun x y => f x = Returns y) xs ys.
Proof.
  induction xs as [|x xs IH]; intros ys H; cbn [for_each] in H.
  - inversion H. constructor.
  - bind_inv H. inversion H; subst. constructor; auto.
Qed.

Lemma for_each_finishes {A B} (f : A -> outcome B) xs :
  (forall x, f x <> Unfinished) -> for_each f xs <> Unfinished.
Proof.
  intros Hf. induction xs as [|x xs IH]; cbn [for_each]; [discriminate|].
  destruct (f x) eqn:E; cbn [bind]; try discriminate.
  - destruct (for_each f xs); cbn [bind]; try discriminate. congruence.
  - exfalso. eapply Hf; eauto.
Qed.

Lemma for_each_raises_at {A B} (f : A -> outcome B) xs x :
  (forall x, f x <> Unfinished) ->
  In x xs -> returned (f x) = false -> exists e, for_each f xs = Raises e.
Proof.
  intros Hf. induction xs as [|a xs IH]; intros Hin Hx; [contradiction|].
  cbn [for_each]. destruct (f a) as [b|e|] eqn:Ea; cbn [bind].
  - destruct Hin as [->|Hin].
    + rewrite Ea in Hx. discriminate.
    + destruct (IH Hin Hx) as [e ->]. cbn [bind]. eauto.
  - eauto.
  - exfalso. eapply Hf; eauto.
Qed.

Lemma getitem_finishes v k : getitem v k <> Unfinished.
Proof.
  destruct v; cbn; try discriminate. destruct (lookup k items); discriminate.
Qed.

Lemma getpath_finishes ks : forall v, getpath v ks <> Unfinished.
Proof.
  induction ks as [|k ks IH]; intros v; cbn [getpath]; [discriminate|].
  destruct (getitem v k) eqn:E; cbn [bind]; try discriminate; auto.
  exfalso. eapply getitem_finishes; eauto.
Qed.

Lemma py_get_finishes v k d : py_get v k d <> Unfinished.
Proof.
  destruct v; cbn; try discriminate. destruct (lookup k items); discriminate.
Qed.

Lemma py_len_finishes v : py_len v <> Unfinished.
Proof. destruct v; discriminate. Qed.

Lemma py_iter_finishes v : py_iter v <> Unfinished.
Proof. destruct v; discriminate. Qed.

Lemma lift_finishes {A} (r : exn + A) : lift r <> Unfinished.
Proof. destruct r; discriminate. Qed.

(** Close a goal [c <> Unfinished] where [c] is a chain of binds over
    calls that finish. *)
Ltac finishes :=
  repeat match goal with
  | |- bind ?c _ <> Unfinished =>
      let E := fresh "E" in
      destruct c eqn:E; cbn [bind];
      [ | discriminate
        | exfalso; revert E;
          first [ apply getitem_finishes | apply getpath_finishes
                | apply py_get_finishes | apply py_len_finishes
                | apply py_iter_finishes | apply lift_finishes ] ]
  | |- Returns _ <> Unfinished => discriminate
  | |- Raises _ <> Unfinished => discriminate
  end.

Lemma py_len_iter_empty v n :
  py_len v = Returns n -> (n >? 0) = false -> py_iter v = Returns [].
Proof.
  destruct v; cbn; intros H Hn; inversion H; subst; clear H.
  - destruct s; cbn in *; [reflexivity|]. destruct (Z.gtb_spec (Z.pos (Pos.of_succ_nat (String.length s))) 0); [discriminate|lia].
  - destruct l; cbn in *; [reflexivity|]. destruct (Z.gtb_spec (Z.pos (Pos.of_succ_nat (List.length l))) 0); [discriminate|lia].
  - destruct items; cbn in *; [reflexivity|]. destruct (Z.gtb_spec (Z.pos (Pos.of_succ_nat (List.length items))) 0); [discriminate|lia].
Qed.

Section Facts.
Variable dex_id : string.
Variable py_int : pyval -> exn + Z.

#[local] Abbreviation swap_event := (swap_event dex_id).
#[local] Abbreviation mint_event := (mint_event dex_id).
#[local] Abbreviation burn_event := (burn_event dex_id).
#[local] Abbreviation base_transaction := (base_transaction dex_id py_int).
#[local] Abbreviation process_response := (process_response dex_id py_int).
#[local] Abbreviation process_bulk_responses := (process_bulk_responses dex_id py_int).
#[local] Abbreviation bulk_loop := (bulk_loop dex_id py_int).

Lemma swap_event_finishes t v : swap_event t v <> Unfinished.
Proof. unfold Processor.swap_event. cbv zeta. finishes. Qed.

Lemma mint_event_finishes t v : mint_event t v <> Unfinished.
Proof. unfold Processor.mint_event. cbv zeta. finishes. Qed.

Lemma burn_event_finishes t v : burn_event t v <> Unfinished.
Proof. unfold Processor.burn_event. cbv zeta. finishes. Qed.

Lemma spread_event_finishes t v : spread_event t v <> Unfinished.
Proof.
  unfold spread_event. destruct v; cbn; try discriminate.
  destruct (lookup _ items); discriminate.
Qed.

Lemma process_list_finishes {E} (event : BaseTransaction -> pyval -> outcome E) data t :
  (forall t v, event t v <> Unfinished) ->
  process_list event data t <> Unfinished.
Proof.
  intros Hev. unfold process_list.
  destruct (py_len data) eqn:El; cbn [bind];
    [|discriminate|exfalso; eapply py_len_finishes; eauto].
  destruct (negb (a >? 0)); [discriminate|].
  destruct (py_iter data) eqn:Ei; cbn [bind];
    [|discriminate|exfalso; eapply py_iter_finishes; eauto].
  apply for_each_finishes. apply Hev.
Qed.

Lemma base_transaction_finishes v : base_transaction v <> Unfinished.
Proof. unfold Processor.base_transaction. finishes. Qed.

Lemma process_response_finishes v : process_response v <> Unfinished.
Proof.
  unfold Processor.process_response.
  destruct (base_transaction v) eqn:Eb; cbn [bind];
    [|discriminate|exfalso; eapply base_transaction_finishes; eauto].
  repeat match goal with
  | |- bind (py_get ?a ?b ?c) _ <> Unfinished =>
      let E := fresh "E" in
      destruct (py_get a b c) eqn:E; cbn [bind];
      [|discriminate|exfalso; eapply py_get_finishes; eauto]
  | |- bind (?p ?d ?t) _ <> Unfinished =>
      let E := fresh "E" in
      destruct (p d t) eqn:E; cbn [bind];
      [|discriminate
       |exfalso; revert E; apply process_list_finishes;
        first [ apply swap_event_finishes | apply mint_event_finishes
              | apply burn_event_finishes | apply spread_event_finishes ]]
  end.
  discriminate.
Qed.

(** What a returned list of one kind is made from. *)
Lemma process_list_elements {E} (event : BaseTransaction -> pyval -> outcome E)
    v key t evs data :
  py_get v key (PList []) = Returns data ->
  process_list event data t = Returns evs ->
  Forall2 (fun x y => event t x = Returns y) (elements_of v key) evs.
Proof.
  intros Hg H. unfold elements_of. rewrite Hg. unfold process_list in H.
  destruct (py_len data) as [n| |] eqn:El; cbn [bind] in H; try discriminate.
  destruct (n >? 0) eqn:En; cbn [negb] in H.
  - bind_inv H. apply for_each_Forall2. assumption.
  - inversion H; subst. rewrite (py_len_iter_empty _ _ El En). constructor.
Qed.

(** A returned [process_response], taken apart. *)
Lemma process_response_inv v ev :
  process_response v = Returns ev ->
  exists t,
    base_transaction v = Returns t
    /\ Forall2 (fun x y => swap_event t x = Returns y) (elements_of v "swaps") (swaps ev)
    /\ Forall2 (fun x y => mint_event t x = Returns y) (elements_of v "mints") (mints ev)
    /\ Forall2 (fun x y => burn_event t x = Returns y) (elements_of v "burns") (burns ev)
    /\ Forall2 (fun x y => spread_event t x = Returns y) (elements_of v "collects") (collects ev)
    /\ Forall2 (fun x y => spread_event t x = Returns y) (elements_of v "flashed") (flashs ev).
Proof.
  intros H. unfold Processor.process_response in H. bind_inv H.
  inversion H; subst; clear H. cbn [swaps mints burns collects flashs].
  eexists. split; [reflexivity|].
  repeat split; eapply process_list_elements; eassumption.
Qed.

Lemma swap_event_carries t x r : swap_event t x = Returns r -> swap_carries t x r.
Proof.
  intros H. unfold Processor.swap_event in H. cbv zeta in H. bind_inv H.
  inversion H; subst; clear H. unfold swap_carries. cbn. repeat split; assumption.
Qed.

Lemma mint_event_carries t x r : mint_event t x = Returns r -> liquidity_carries t x r.
Proof.
  intros H. unfold Processor.mint_event in H. cbv zeta in H. bind_inv H.
  inversion H; subst; clear H. unfold liquidity_carries. cbn. repeat split; assumption.
Qed.

Lemma burn_event_carries t x r : burn_event t x = Returns r -> liquidity_carries t x r.
Proof.
  intros H. unfold Processor.burn_event in H. cbv zeta in H. bind_inv H.
  inversion H; subst; clear H. unfold liquidity_carries. cbn. repeat split; assumption.
Qed.

Lemma spread_event_carries t x r : spread_event t x = Returns r -> spread_carries t x r.
Proof.
  unfold spread_event, spread_carries. destruct x; cbn; try discriminate.
  destruct (lookup _ items); intros H; inversion H; subst. cbn. auto.
Qed.

Lemma base_transaction_carries v t :
  base_transaction v = Returns t ->
  getitem v "id" = Returns (tx_id t)
  /\ getitem v "gasUsed" = Returns (tx_gas_used t)
  /\ getitem v "gasPrice" = Returns (tx_gas_price t)
  /\ tx_dex_id t = dex_id.
Proof.
  intros H. unfold Processor.base_transaction in H. bind_inv H.
  inversion H; subst; clear H. cbn. auto.
Qed.

(** Every record of an accepted payload, against the element it came from. *)
Lemma process_response_carries v ev :
  process_response v = Returns ev ->
  exists t,
    base_transaction v = Returns t
    /\ Forall2 (swap_carries t) (elements_of v "swaps") (swaps ev)
    /\ Forall2 (liquidity_carries t) (elements_of v "mints") (mints ev)
    /\ Forall2 (liquidity_carries t) (elements_of v "burns") (burns ev)
    /\ Forall2 (spread_carries t) (elements_of v "collects") (collects ev)
    /\ Forall2 (spread_carries t) (elements_of v "flashed") (flashs ev).
Proof.
  intros H. apply process_response_inv in H.
  destruct H as (t & Hb & Hs & Hm & Hbu & Hc & Hf).
  exists t. split; [assumption|].
  repeat split;
    match goal with
    | H : Forall2 _ ?l ?l' |- Forall2 _ ?l ?l' =>
        eapply Forall2_impl; [|exact H]; cbv beta; intros a b Hab
    end;
    first [ apply swap_event_carries; assumption
          | apply mint_event_carries; assumption
          | apply burn_event_carries; assumption
          | apply spread_event_carries; assumption ].
Qed.


Lemma getitem_py_get v k d x : getitem v k = Returns x -> py_get v k d = Returns x.
Proof.
  destruct v; cbn; try discriminate. destruct (lookup k items); congruence.
Qed.

Lemma py_iter_len v l : py_iter v = Returns l -> exists n, py_len v = Returns n.
Proof. destruct v; cbn; try discriminate; eauto. Qed.

Lemma Forall2_In_left {A B} (R : A -> B -> Prop) xs ys x :
  Forall2 R xs ys -> In x xs -> exists y, In y ys /\ R x y.
Proof.
  induction 1 as [|a b xs ys Hab _ IH]; intros Hin; [contradiction|].
  destruct Hin as [->|Hin].
  - exists b. split; [left; reflexivity|assumption].
  - destruct (IH Hin) as (y & Hy & Hr). exists y. split; [right|]; assumption.
Qed.

Lemma first_failure {A B} (f : A -> outcome B) xs x :
  In x xs -> returned (f x) = false ->
  exists pre bad post,
    xs = pre ++ bad :: post
    /\ Forall (fun t => returned (f t) = true) pre
    /\ returned (f bad) = false.
Proof.
  induction xs as [|a xs IH]; intros Hin Hx; [contradiction|].
  destruct (returned (f a)) eqn:Ha.
  - destruct Hin as [->|Hin]; [congruence|].
    destruct (IH Hin Hx) as (pre & bad & post & -> & Hpre & Hbad).
    exists (a :: pre), bad, post. repeat split; auto.
  - exists [], a, xs. repeat split; auto.
Qed.

Lemma bulk_loop_raises pre bad post e :
  Forall (fun t => returned (process_response t) = true) pre ->
  process_response bad = Raises e ->
  forall results, bulk_loop (pre ++ bad :: post) results = Raises e.
Proof.
  intros Hpre Hbad. induction Hpre as [|a pre Ha Hpre IH]; intros results;
    cbn [app Processor.bulk_loop].
  - rewrite Hbad. reflexivity.
  - destruct (process_response a); try discriminate. cbn [bind]. apply IH.
Qed.

(** C2, amended.  For every transaction payload (a dict) from which one of
    [id], [blockNumber], [timestamp], [gasUsed], [gasPrice] is absent,
    [process_response] raises and returns no events at all: the exception
    is [KeyError] for an absent required key, or the exception that [int]
    raised on the [blockNumber] or [timestamp] value present. *)
Theorem missing_required_field_aborts (items : list (string * pyval)) (k : string) :
  In k required_keys -> lookup k items = None ->
  exists e,
    process_response (PDict items) = Raises e
    /\ ((exists k', In k' required_keys /\ lookup k' items = None /\ e = KeyError k')
        \/ (exists raw,
              (lookup "blockNumber" items = Some raw
               \/ lookup "timestamp" items = Some raw)
              /\ py_int raw = inl e)).
Proof.
  intros Hin Hk.
  unfold Processor.process_response, Processor.base_transaction. cbn [getitem].
  destruct (lookup "id" items) as [id|] eqn:Eid; cbn [bind];
    [|eexists; split; [reflexivity|left; exists "id"%string; cbn; auto]].
  destruct (lookup "blockNumber" items) as [bn|] eqn:Ebn; cbn [bind];
    [|eexists; split; [reflexivity|left; exists "blockNumber"%string; cbn; auto]].
  destruct (py_int bn) as [e|n] eqn:Eint; cbn [lift bind];
    [eexists; split; [reflexivity|right; exists bn; auto]|].
  destruct (lookup "timestamp" items) as [ts|] eqn:Ets; cbn [bind];
    [|eexists; split; [reflexivity|left; exists "timestamp"%string; cbn; auto]].
  destruct (py_int ts) as [e|m] eqn:Eint'; cbn [lift bind];
    [eexists; split; [reflexivity|right; exists ts; auto]|].
  destruct (lookup "gasUsed" items) as [gu|] eqn:Egu; cbn [bind];
    [|eexists; split; [reflexivity|left; exists "gasUsed"%string; cbn; auto 10]].
  destruct (lookup "gasPrice" items) as [gp|] eqn:Egp; cbn [bind];
    [|eexists; split; [reflexivity|left; exists "gasPrice"%string; cbn; auto 10]].
  exfalso. cbn in Hin.
  destruct Hin as [<-|[<-|[<-|[<-|[<-|[]]]]]]; congruence.
Qed.

(** C3.  For every batch [{'data': {'transactions': ...}}] in which the
    normalization of some transaction does not return,
    [process_bulk_responses] raises the very exception that
    [process_response] raised on the first such transaction, and returns
    no collections, whatever the transactions before it had produced. *)
Theorem bulk_failure_aborts_batch (response_data data transactions_value : pyval)
    (transactions : list pyval) (tx : pyval) (e0 : exn) :
  getitem response_data "data" = Returns data ->
  getitem data "transactions" = Returns transactions_value ->
  py_iter transactions_value = Returns transactions ->
  In tx transactions ->
  process_response tx = Raises e0 ->
  exists pre bad post e,
    transactions = pre ++ bad :: post
    /\ Forall (fun t => returned (process_response t) = true) pre
    /\ process_response bad = Raises e
    /\ process_bulk_responses response_data = Raises e.
Proof.
  intros Hd Ht Hi Hin Hraise.
  assert (Hx : returned (process_response tx) = false) by (rewrite Hraise; reflexivity).
  destruct (first_failure process_response transactions tx Hin Hx)
    as (pre & bad & post & Heq & Hpre & Hbad).
  destruct (process_response bad) as [ev|e|] eqn:Eb; cbn in Hbad;
    [discriminate| |exfalso; eapply process_response_finishes; eauto].
  exists pre, bad, post, e. repeat split; try assumption.
  unfold Processor.process_bulk_responses.
  rewrite (getitem_py_get _ _ (PDict []) _ Hd). cbn [bind].
  rewrite (getitem_py_get _ _ (PList []) _ Ht). cbn [bind].
  destruct (py_iter_len _ _ Hi) as [n ->]. cbn [bind].
  rewrite Hd. cbn [bind]. rewrite Ht. cbn [bind]. rewrite Hi. cbn [bind].
  rewrite Heq. apply bulk_loop_raises; assumption.
Qed.

(** Swap, mint and burn records carry the timestamp of their parent. *)
Lemma swap_mint_burn_timestamps v ev :
  process_response v = Returns ev ->
  Forall (fun r => swap_timestamp r = tx_timestamp (swap_parent_transaction r)) (swaps ev)
  /\ Forall (fun r => liq_timestamp r = tx_timestamp (liq_parent_transaction r)) (mints ev)
  /\ Forall (fun r => liq_timestamp r = tx_timestamp (liq_parent_transaction r)) (burns ev).
Proof.
  intros H. apply process_response_carries in H.
  destruct H as (t & _ & Hs & Hm & Hb & _).
  repeat split.
  - induction Hs as [|x r xs rs Hr _ IH]; constructor; auto.
    destruct Hr as (-> & -> & _). reflexivity.
  - induction Hm as [|x r xs rs Hr _ IH]; constructor; auto.
    destruct Hr as (-> & -> & _). reflexivity.
  - induction Hb as [|x r xs rs Hr _ IH]; constructor; auto.
    destruct Hr as (-> & -> & _). reflexivity.
Qed.

(** C5, amended.  [process_response] always finishes.  When it returns,
    every swap, mint and burn record carries in [origin], [fee_tier] and
    [liquidity] exactly the values found at the keys [origin],
    [pool.feeTier] and [pool.liquidity] of its element, which are
    therefore present ([None] stays [None], nothing is defaulted).  When
    one of these reads fails on some swap, mint or burn element,
    [process_response] raises. *)
Theorem optional_fields_read_strictly (v : pyval) :
  process_response v <> Unfinished
  /\ (forall ev, process_response v = Returns ev ->
        Forall2 swap_optionals (elements_of v "swaps") (swaps ev)
        /\ Forall2 liquidity_optionals (elements_of v "mints") (mints ev)
        /\ Forall2 liquidity_optionals (elements_of v "burns") (burns ev))
  /\ (forall x,
        In x (elements_of v "swaps" ++ elements_of v "mints" ++ elements_of v "burns") ->
        Exists (fun read => returned read = false) (optional_reads x) ->
        exists e, process_response v = Raises e).
Proof.
  assert (Hacc : forall ev, process_response v = Returns ev ->
        Forall2 swap_optionals (elements_of v "swaps") (swaps ev)
        /\ Forall2 liquidity_optionals (elements_of v "mints") (mints ev)
        /\ Forall2 liquidity_optionals (elements_of v "burns") (burns ev)).
  { intros ev H. apply process_response_carries in H.
    destruct H as (t & _ & Hs & Hm & Hb & _).
    repeat split;
      match goal with
      | H : Forall2 _ ?l ?l' |- Forall2 _ ?l ?l' =>
          eapply Forall2_impl; [|exact H]; cbv beta; intros a b Hab
      end.
    - destruct Hab as (_ & _ & _ & _ & _ & Ho & Hf & Hl). repeat split; assumption.
    - destruct Hab as (_ & _ & _ & _ & _ & Ho & Hf & Hl). repeat split; assumption.
    - destruct Hab as (_ & _ & _ & _ & _ & Ho & Hf & Hl). repeat split; assumption. }
  split; [apply process_response_finishes|]. split; [exact Hacc|].
  intros x Hin Hex.
  destruct (process_response v) as [ev|e|] eqn:Ev;
    [|eauto|exfalso; eapply process_response_finishes; eauto].
  exfalso. destruct (Hacc ev eq_refl) as (Hs & Hm & Hb).
  assert (Hx : exists a b c, optional_reads x = [Returns a; Returns b; Returns c]).
  { rewrite !in_app_iff in Hin. destruct Hin as [Hin|[Hin|Hin]].
    - destruct (Forall2_In_left _ _ _ _ Hs Hin) as (r & _ & Ho & Hf & Hl).
      unfold optional_reads. rewrite Ho, Hf, Hl. eauto.
    - destruct (Forall2_In_left _ _ _ _ Hm Hin) as (r & _ & Ho & Hf & Hl).
      unfold optional_reads. rewrite Ho, Hf, Hl. eauto.
    - destruct (Forall2_In_left _ _ _ _ Hb Hin) as (r & _ & Ho & Hf & Hl).
      unfold optional_reads. rewrite Ho, Hf, Hl. eauto. }
  destruct Hx as (a & b & c & Hx). rewrite Hx in Hex.
  repeat match goal with
  | H : Exists _ (_ :: _) |- _ => inversion H; subst; clear H
  | H : Exists _ [] |- _ => inversion H
  | H : returned (Returns _) = false |- _ => discriminate H
  end.
Qed.

(** C6.  For every accepted payload, each swap, mint and burn record holds
    in [amount0], [amount1] and [amount_usd] the very values found at
    [amount0], [amount1] and [amountUSD] of its element, each collect and
    flash record holds the key/value pairs of its element unchanged, and
    the parent transaction shared by all of them holds the payload's
    [gasPrice] value unchanged. *)
Theorem amounts_carried_verbatim (v : pyval) (ev : Events) :
  process_response v = Returns ev ->
  exists t,
    getitem v "gasPrice" = Returns (tx_gas_price t)
    /\ Forall2 (swap_amounts t) (elements_of v "swaps") (swaps ev)
    /\ Forall2 (liquidity_amounts t) (elements_of v "mints") (mints ev)
    /\ Forall2 (liquidity_amounts t) (elements_of v "burns") (burns ev)
    /\ Forall2 (spread_carries t) (elements_of v "collects") (collects ev)
    /\ Forall2 (spread_carries t) (elements_of v "flashed") (flashs ev).
Proof.
  intros H. apply process_response_carries in H.
  destruct H as (t & Hbase & Hs & Hm & Hb & Hc & Hf).
  apply base_transaction_carries in Hbase. destruct Hbase as (_ & _ & Hgp & _).
  exists t. split; [assumption|].
  repeat split; try assumption;
    match goal with
    | H : Forall2 _ ?l ?l' |- Forall2 _ ?l ?l' =>
        eapply Forall2_impl; [|exact H]; cbv beta; intros a b Hab
    end;
    destruct Hab as (Hp & _ & H0 & H1 & Hu & _); repeat split; assumption.
Qed.

End Facts.

Import Samples.

Lemma missing_required_field_aborts_witness :
  exists e,
    process_response uniswap_v3 int_decimal (PDict items_no_timestamp) = Raises e
    /\ ((exists k', In k' required_keys
                    /\ lookup k' items_no_timestamp = None /\ e = KeyError k')
        \/ (exists raw,
              (lookup "blockNumber" items_no_timestamp = Some raw
               \/ lookup "timestamp" items_no_timestamp = Some raw)
              /\ int_decimal raw = inl e)).
Proof.
  apply (missing_required_field_aborts uniswap_v3 int_decimal
           items_no_timestamp "timestamp").
  - right. right. left. reflexivity.
  - reflexivity.
Defined.

(** C2, as stated, fails: a payload without [timestamp] makes
    [process_response] raise [KeyError], not [MalformedTransactionError]. *)
Lemma missing_timestamp_raises_key_error :
  ~ (forall items k,
       In k required_keys -> lookup k items = None ->
       process_response uniswap_v3 int_decimal (PDict items)
       = Raises MalformedTransactionError).
Proof.
  intros H.
  specialize (H items_no_timestamp "timestamp"%string
                (or_intror (or_intror (or_introl eq_refl))) eq_refl).
  vm_compute in H. discriminate H.
Qed.

Lemma bulk_failure_aborts_batch_witness :
  exists pre bad post e,
    [tx_swap; PDict items_no_timestamp; tx_collect] = pre ++ bad :: post
    /\ Forall (fun t => returned (process_response uniswap_v3 int_decimal t) = true) pre
    /\ process_response uniswap_v3 int_decimal bad = Raises e
    /\ process_bulk_responses uniswap_v3 int_decimal batch = Raises e.
Proof.
  apply (bulk_failure_aborts_batch uniswap_v3 int_decimal batch
           (PDict [("transactions"%string,
                    PList [tx_swap; PDict items_no_timestamp; tx_collect])])
           (PList [tx_swap; PDict items_no_timestamp; tx_collect])
           [tx_swap; PDict items_no_timestamp; tx_collect]
           (PDict items_no_timestamp) (KeyError "timestamp")).
  - reflexivity.
  - reflexivity.
  - reflexivity.
  - right. left. reflexivity.
  - reflexivity.
Defined.

(** C4, evaluated on a payload with one collect.  The collect record is
    built by spreading the element, so its [timestamp] attribute is the
    element's own value, here the string "1700000999", while the parent
    transaction's timestamp is the integer 1700000000 read from the top
    level of the payload.  ([swap_mint_burn_timestamps] above is the part
    of C4 that holds.) *)
Theorem collect_timestamp_not_from_parent :
  exists ev c,
    process_response uniswap_v3 int_decimal tx_collect = Returns ev
    /\ collects ev = [c]
    /\ tx_timestamp (spread_parent_transaction c) = 1700000000
    /\ spread_attr "timestamp" c = Some (PStr "1700000999")
    /\ spread_attr "timestamp" c
       <> Some (PInt (tx_timestamp (spread_parent_transaction c))).
Proof.
  eexists. eexists. split; [lazy; reflexivity|].
  cbn [collects]. split; [reflexivity|].
  split; [reflexivity|]. split; [reflexivity|]. discriminate.
Qed.

(** C5, as stated, fails: a swap without the key [origin] makes
    normalization raise instead of producing a record. *)
Lemma missing_origin_rejected :
  ~ (forall v x,
       In x (elements_of v "swaps") ->
       getitem x "origin" = Raises (KeyError "origin") ->
       returned (process_response uniswap_v3 int_decimal v) = true).
Proof.
  intros H.
  specialize (H tx_no_origin swap_no_origin (or_introl eq_refl) eq_refl).
  vm_compute in H. discriminate H.
Qed.

Lemma optional_fields_read_strictly_witness :
  (exists ev,
     process_response uniswap_v3 int_decimal tx_swap = Returns ev
     /\ map swap_origin (swaps ev) = [PNone]
     /\ map swap_fee_tier (swaps ev) = [PInt 0]
     /\ Forall2 swap_optionals (elements_of tx_swap "swaps") (swaps ev)
     /\ Forall2 liquidity_optionals (elements_of tx_swap "mints") (mints ev)
     /\ Forall2 liquidity_optionals (elements_of tx_swap "burns") (burns ev))
  /\ (exists e, process_response uniswap_v3 int_decimal tx_no_origin = Raises e).
Proof.
  split.
  - eexists. split; [lazy; reflexivity|].
    split; [reflexivity|]. split; [reflexivity|].
    apply (proj1 (proj2 (optional_fields_read_strictly uniswap_v3 int_decimal tx_swap))).
    reflexivity.
  - apply (proj2 (proj2 (optional_fields_read_strictly uniswap_v3 int_decimal
                            tx_no_origin)) swap_no_origin).
    + left. reflexivity.
    + left. reflexivity.
Defined.

Lemma amounts_carried_verbatim_witness :
  exists ev,
    process_response uniswap_v3 int_decimal tx_collect = Returns ev
    /\ map swap_amount0 (swaps ev) = [PStr "123456789012345678901234.5"]
    /\ exists t,
         getitem tx_collect "gasPrice" = Returns (tx_gas_price t)
         /\ Forall2 (swap_amounts t) (elements_of tx_collect "swaps") (swaps ev)
         /\ Forall2 (liquidity_amounts t) (elements_of tx_collect "mints") (mints ev)
         /\ Forall2 (liquidity_amounts t) (elements_of tx_collect "burns") (burns ev)
         /\ Forall2 (spread_carries t) (elements_of tx_collect "collects") (collects ev)
         /\ Forall2 (spread_carries t) (elements_of tx_collect "flashed") (flashs ev).
Proof.
  eexists. split; [lazy; reflexivity|]. split; [reflexivity|].
  apply (amounts_carried_verbatim uniswap_v3 int_decimal tx_collect).
  reflexivity.
Defined.

End ProcessorProofs.

(** * Further properties of the partition scheduler *)

Module SchemaExtras.
Import Calendar Schema Naming Shapes SchemaProofs.
Import Shapes.MoreSamples.

(** *** Partition names read back *)

Lemma count_from_In n : forall lo z,
  lo <= z < lo + Z.of_nat n -> In z (count_from lo n).
Proof.
  induction n as [|n IH]; intros lo z Hz; [lia|]. cbn [count_from].
  destruct (Z.eq_dec lo z) as [->|Hne]; [left; reflexivity|].
  right. apply IH. lia.
Qed.

Lemma years_read_back : forallb (reads_back 4) (count_from 1 9999) = true.
Proof. vm_compute. reflexivity. Qed.

Lemma months_read_back : forallb (reads_back 2) (count_from 1 12) = true.
Proof. vm_compute. reflexivity. Qed.

Lemma reads_back_spec width n :
  reads_back width n = true ->
  String.length (zero_pad width (str_of_Z n)) = width
  /\ decimal_value 0 (zero_pad width (str_of_Z n)) = Some n.
Proof.
  unfold reads_back. cbv zeta. intros H. apply andb_true_iff in H.
  destruct H as [Hl Hd]. apply Nat.eqb_eq in Hl. split; [assumption|].
  destruct (decimal_value 0 (zero_pad width (str_of_Z n))) as [z|]; [|discriminate].
  apply Z.eqb_eq in Hd. congruence.
Qed.

Lemma decode_suffix_strftime ym :
  valid_month ym -> decode_suffix (strftime_Y_m (month_start ym)) = Some ym.
Proof.
  destruct ym as [y m]. intros [Hy Hm]. unfold MINYEAR, MAXYEAR in Hy.
  cbn [fst snd] in *.
  assert (Hyr : reads_back 4 y = true).
  { apply (proj1 (forallb_forall _ _) years_read_back).
    apply count_from_In.
    replace (Z.of_nat 9999) with 9999 by (vm_compute; reflexivity). lia. }
  assert (Hmr : reads_back 2 m = true).
  { apply (proj1 (forallb_forall _ _) months_read_back).
    apply count_from_In. lia. }
  apply reads_back_spec in Hyr, Hmr.
  destruct Hyr as [Hyl Hyd], Hmr as [Hml Hmd].
  unfold strftime_Y_m, month_start. cbn [year month fst snd].
  destruct (zero_pad 4 (str_of_Z y)) as [|c1 [|c2 [|c3 [|c4 [|c5 r]]]]];
    try discriminate Hyl.
  destruct (zero_pad 2 (str_of_Z m)) as [|d1 [|d2 [|d3 r]]];
    try discriminate Hml.
  unfold decode_suffix.
  change (substring 0 4 (String c1 (String c2 (String c3 (String c4 "")))
                          ++ "_" ++ String d1 (String d2 "")))
    with (String c1 (String c2 (String c3 (String c4 "")))).
  change (substring 5 2 (String c1 (String c2 (String c3 (String c4 "")))
                          ++ "_" ++ String d1 (String d2 "")))
    with (String d1 (String d2 "")).
  rewrite Hyd, Hmd. reflexivity.
Qed.

Lemma decode_name_partition tb ym :
  In tb base_tables -> valid_month ym ->
  decode_name (partition_name tb (strftime_Y_m (month_start ym))) = Some (tb, ym).
Proof.
  intros Hin Hv. pose proof (decode_suffix_strftime ym Hv) as Hd.
  cbn in Hin. destruct Hin as [<-|[<-|[<-|[]]]];
    unfold decode_name, partition_name;
    cbv - [decode_suffix strftime_Y_m month_start];
    rewrite Hd; reflexivity.
Qed.

(** *** The specs of a run, one by one *)

Lemma months_from_valid n :
  forall ym ym', valid_month ym ->
    month_index ym + Z.of_nat n <= 12 * MAXYEAR + 13 ->
    In ym' (months_from n ym) ->
    valid_month ym' /\ month_index ym <= month_index ym' < month_index ym + Z.of_nat n.
Proof.
  induction n as [|n IH]; intros ym ym' Hv Hb Hin; cbn [months_from] in Hin;
    [contradiction|].
  destruct Hin as [<-|Hin]; [split; [assumption|lia]|].
  destruct n as [|n]; [contradiction|].
  destruct (IH (succ_month ym) ym') as [Hv' Hi]; try assumption.
  - apply succ_month_valid; [assumption|lia].
  - rewrite succ_month_index. lia.
  - rewrite succ_month_index in Hi. split; [assumption|lia].
Qed.

Lemma months_from_app a : forall b ym,
  months_from (a + b) ym = months_from a ym ++ months_from b (month_after a ym).
Proof.
  induction a as [|a IH]; intros b ym; cbn [Nat.add months_from month_after app];
    [reflexivity|].
  rewrite IH. reflexivity.
Qed.

Lemma in_specs_of_month ts ym sp :
  In sp (specs_of_month ts ym) ->
  exists tb, In tb base_tables
    /\ sp = mk_spec tb (partition_name tb (strftime_Y_m (month_start ym)))
              (ts (month_start ym)) (ts (month_start (succ_month ym))).
Proof.
  unfold specs_of_month. intros Hin. apply in_map_iff in Hin.
  destruct Hin as (tb & <- & Hin). exists tb. split; [assumption|reflexivity].
Qed.

Lemma in_expected_specs ts s e sp :
  valid_datetime s = true -> valid_datetime e = true ->
  In sp (expected_specs ts s e) ->
  exists tb ym, In tb base_tables /\ valid_month ym
    /\ sp = mk_spec tb (partition_name tb (strftime_Y_m (month_start ym)))
              (ts (month_start ym)) (ts (month_start (succ_month ym))).
Proof.
  intros Hs He Hin. unfold expected_specs in Hin. apply in_flat_map in Hin.
  destruct Hin as (ym & Hym & Hsp).
  pose proof (valid_datetime_month s Hs) as Hms.
  pose proof (valid_datetime_month e He) as Hme.
  apply months_from_valid in Hym; try assumption.
  - destruct (in_specs_of_month ts ym sp Hsp) as (tb & Htb & ->).
    exists tb, ym. repeat split; try assumption; apply Hym.
  - destruct Hms as [Hys Hmms], Hme as [Hye Hmme].
    unfold month_count, month_index, MINYEAR, MAXYEAR in *. cbn [fst snd] in *. lia.
Qed.

(** X1.  On every start, end and interval, also outside the calendar, the
    loop of [get_partition_queries] ends within its variant: the call
    returns a list of statements, or raises [ValueError] (that of the
    datetime constructor or of [timestamp()]), and nothing else. *)
Theorem get_partition_queries_terminates ts (s e : datetime) (i : timedelta) :
  (exists queries, get_partition_queries ts s e i = Returns queries)
  \/ get_partition_queries ts s e i = Raises ValueError.
Proof.
  destruct (get_partition_queries ts s e i) as [qs|x|] eqn:H.
  - left. eauto.
  - right. apply get_partition_queries_raises in H. congruence.
  - exfalso. eapply get_partition_queries_finishes; eauto.
Qed.

(** X2.  On valid datetimes [get_partition_queries] raises, and then
    [ValueError], exactly when the end lies in December 9999, the month
    whose successor the datetime constructor refuses, or the start lies in
    January of year 1, the month whose start [timestamp()] refuses. *)
Theorem raises_iff_end_in_last_month ts (s e : datetime) (i : timedelta) :
  valid_datetime s = true -> valid_datetime e = true ->
  (get_partition_queries ts s e i = Raises ValueError
   <-> in_last_month e = true \/ in_first_month s = true).
Proof.
  intros Hs He. split.
  - intros H. destruct (in_last_month e) eqn:Hl; [left; reflexivity|].
    destruct (in_first_month s) eqn:Hf; [right; reflexivity|].
    rewrite get_partition_queries_render,
      (get_partition_specs_months ts s e i Hs He Hl Hf) in H. discriminate H.
  - intros Hedge. destruct (in_last_month e) eqn:Hl.
    + exact (end_in_last_month_raises ts query_text s e i Hs Hl).
    + destruct Hedge as [Hedge|Hf]; [discriminate|].
      exact (start_in_first_month_raises ts query_text s e i Hs He Hl Hf).
Qed.

Lemma raises_iff_end_in_last_month_witness :
  get_partition_queries utc_timestamp nov_2023 dec_9999 thirty_days
    = Raises ValueError
  /\ get_partition_queries utc_timestamp jan_3_year_1 mar_year_1 thirty_days
     = Raises ValueError.
Proof.
  split.
  - apply (raises_iff_end_in_last_month utc_timestamp nov_2023 dec_9999 thirty_days);
      try reflexivity.
    left. reflexivity.
  - apply (raises_iff_end_in_last_month utc_timestamp jan_3_year_1 mar_year_1
             thirty_days); try reflexivity.
    right. reflexivity.
Defined.

(** X3.  A window can be cut at a month boundary: when [e'] lies in the
    month after that of [e], the statements for the window from [s] to [f]
    are those for [s] to [e] followed by those for [e'] to [f], on every
    window on which the method can run (the start not in January of
    year 1, the end not in December 9999). *)
Theorem window_splits_at_month_boundary ts (s e e' f : datetime) (i : timedelta) :
  valid_datetime s = true -> valid_datetime e = true ->
  valid_datetime e' = true -> valid_datetime f = true ->
  in_first_month s = false ->
  in_last_month f = false ->
  (year e', month e') = succ_month (year e, month e) ->
  month_index (year s, month s) <= month_index (year e, month e) ->
  month_index (year e', month e') <= month_index (year f, month f) ->
  exists first second,
    get_partition_queries ts s e i = Returns first
    /\ get_partition_queries ts e' f i = Returns second
    /\ get_partition_queries ts s f i = Returns (first ++ second).
Proof.
  intros Hs He He' Hf Hfs Hlf Hsucc Hse Hef.
  pose proof (valid_datetime_month s Hs) as Hms.
  pose proof (valid_datetime_month e He) as Hme.
  pose proof (valid_datetime_month e' He') as Hme'.
  pose proof (valid_datetime_month f Hf) as Hmf.
  pose proof (in_last_month_false f Hf Hlf) as Hmaxf.
  pose proof (succ_month_index (year e, month e)) as Hidx.
  rewrite <- Hsucc in Hidx.
  assert (Hle : in_last_month e = false).
  { destruct (in_last_month e) eqn:Hl; [|reflexivity].
    unfold in_last_month in Hl. apply andb_true_iff in Hl.
    destruct Hl as [Hy Hm]. apply Z.eqb_eq in Hy, Hm.
    destruct Hme' as [Hy' _]. unfold month_index, MAXYEAR in *.
    cbn [fst snd] in *. lia. }
  assert (Hfe' : in_first_month e' = false).
  { destruct (in_first_month e') eqn:Hl; [|reflexivity].
    unfold in_first_month in Hl. apply andb_true_iff in Hl.
    destruct Hl as [Hy Hm]. apply Z.eqb_eq in Hy, Hm.
    destruct Hme as [Hye Hmme].
    unfold month_index, MINYEAR in *. cbn [fst snd] in *. lia. }
  exists (map render (expected_specs ts s e)), (map render (expected_specs ts e' f)).
  rewrite !get_partition_queries_render.
  rewrite (get_partition_specs_months ts s e i Hs He Hle Hfs).
  rewrite (get_partition_specs_months ts e' f i He' Hf Hlf Hfe').
  rewrite (get_partition_specs_months ts s f i Hs Hf Hlf Hfs).
  cbn [omap]. repeat split. f_equal. rewrite <- map_app. f_equal.
  unfold expected_specs.
  replace (month_count s f) with (month_count s e + month_count e' f)%nat.
  - rewrite months_from_app, flat_map_app.
    replace (month_after (month_count s e) (year s, month s))
      with (year e', month e'); [reflexivity|].
    symmetry. apply valid_month_index_inj.
    + apply month_after_valid; [assumption|].
      unfold month_count, month_index in *. cbn [fst snd] in *.
      destruct Hme' as [Hy' Hm']. unfold MAXYEAR in *. cbn [fst snd] in *. lia.
    + assumption.
    + rewrite month_after_index.
      unfold month_count, month_index in *. cbn [fst snd] in *. lia.
  - unfold month_count, month_index in *. cbn [fst snd] in *. lia.
Qed.

Lemma window_splits_at_month_boundary_witness :
  exists first second,
    get_partition_queries utc_timestamp nov_2023 dec_2023 one_day = Returns first
    /\ get_partition_queries utc_timestamp jan_2024 feb_2024 one_day = Returns second
    /\ get_partition_queries utc_timestamp nov_2023 feb_2024 one_day
       = Returns (first ++ second).
Proof.
  apply (window_splits_at_month_boundary utc_timestamp nov_2023 dec_2023
           jan_2024 feb_2024 one_day); try reflexivity; vm_compute; discriminate.
Defined.

(** *** Order of the ranges *)

Lemma specs_from_lower_bound ts n :
  month_starts_increase ts ->
  forall ym sp, valid_month ym ->
    month_index ym + Z.of_nat n <= 12 * MAXYEAR + 12 ->
    In sp (flat_map (specs_of_month ts) (months_from n ym)) ->
    ts (month_start ym) <= range_start sp /\ range_start sp < range_end sp.
Proof.
  intros Hmono. induction n as [|n IH]; intros ym sp Hv Hb Hin;
    cbn [months_from flat_map] in Hin; [contradiction|].
  pose proof (month_start_step ts ym Hmono Hv ltac:(lia)) as Hstep.
  apply in_app_or in Hin. destruct Hin as [Hin|Hin].
  - destruct (in_specs_of_month ts ym sp Hin) as (tb & _ & ->).
    cbn [range_start range_end]. lia.
  - destruct (IH (succ_month ym) sp) as [Hlo Hne]; try assumption.
    + apply succ_month_valid; [assumption|lia].
    + rewrite succ_month_index. lia.
    + lia.
Qed.

Lemma specs_from_ascending ts n :
  month_starts_increase ts ->
  forall ym, valid_month ym ->
    month_index ym + Z.of_nat n <= 12 * MAXYEAR + 12 ->
    ForallOrdPairs (fun a b => range_start a <= range_start b)
      (flat_map (specs_of_month ts) (months_from n ym)).
Proof.
  intros Hmono. induction n as [|n IH]; intros ym Hv Hb;
    cbn [months_from flat_map]; [constructor|].
  pose proof (month_start_step ts ym Hmono Hv ltac:(lia)) as Hstep.
  assert (Hrest : Forall (fun sp => ts (month_start (succ_month ym)) <= range_start sp)
                    (flat_map (specs_of_month ts) (months_from n (succ_month ym)))).
  { apply Forall_forall. intros sp Hin.
    apply (specs_from_lower_bound ts n Hmono (succ_month ym) sp); try assumption.
    - apply succ_month_valid; [assumption|lia].
    - rewrite succ_month_index. lia. }
  assert (Htail : ForallOrdPairs (fun a b => range_start a <= range_start b)
                    (flat_map (specs_of_month ts) (months_from n (succ_month ym)))).
  { apply IH; [apply succ_month_valid; [assumption|lia]|].
    rewrite succ_month_index. lia. }
  unfold specs_of_month at 1. cbn [base_tables map app].
  repeat (constructor;
          [repeat (constructor; [cbn [range_start]; lia|]);
           eapply Forall_impl; [|exact Hrest];
           cbv beta; intros sp Hsp; cbn [range_start]; lia|]).
  exact Htail.
Qed.

(** X4.  When [timestamp] orders month starts, every returned partition
    has a non-empty range, and the partitions come in ascending order of
    their range start. *)
Theorem ranges_ascending ts (s e : datetime) (i : timedelta)
    (specs : list PartitionSpec) :
  valid_datetime s = true -> valid_datetime e = true ->
  month_starts_increase ts ->
  get_partition_specs ts s e i = Returns specs ->
  Forall (fun sp => range_start sp < range_end sp) specs
  /\ ForallOrdPairs (fun a b => range_start a <= range_start b) specs.
Proof.
  intros Hs He Hmono Hret.
  destruct (returned_specs_window ts s e i specs Hs He Hret) as [Hl Hfirst].
  rewrite (get_partition_specs_months ts s e i Hs He Hl Hfirst) in Hret.
  inversion Hret; subst specs; clear Hret.
  pose proof (valid_datetime_month s Hs) as Hms.
  pose proof (valid_datetime_month e He) as Hme.
  pose proof (in_last_month_false e He Hl) as Hmax.
  assert (Hb : month_index (year s, month s) + Z.of_nat (month_count s e)
               <= 12 * MAXYEAR + 12).
  { destruct Hms as [Hys Hms], Hme as [Hye Hme].
    unfold month_count, month_index, MINYEAR, MAXYEAR in *.
    cbn [fst snd] in *. lia. }
  unfold expected_specs. split.
  - apply Forall_forall. intros sp Hin.
    exact (proj2 (specs_from_lower_bound ts _ Hmono _ sp Hms Hb Hin)).
  - apply specs_from_ascending; assumption.
Qed.

Lemma ranges_ascending_witness :
  exists specs,
    get_partition_specs utc_timestamp nov_2023 jan_2024 one_day = Returns specs
    /\ Forall (fun sp => range_start sp < range_end sp) specs
    /\ ForallOrdPairs (fun a b => range_start a <= range_start b) specs.
Proof.
  eexists. split; [lazy; reflexivity|].
  apply (ranges_ascending utc_timestamp nov_2023 jan_2024 one_day);
    try reflexivity.
  exact utc_month_starts_increase.
Defined.

(** X5.  Within one result no two partitions share a name: two specs with
    the same name are the same spec, so no statement creates a table
    that another statement of the run creates. *)
Theorem partition_names_unique ts (s e : datetime) (i : timedelta)
    (specs : list PartitionSpec) :
  valid_datetime s = true -> valid_datetime e = true ->
  get_partition_specs ts s e i = Returns specs ->
  forall a b, In a specs -> In b specs -> name a = name b -> a = b.
Proof.
  intros Hs He Hret a b Ha Hb Hname.
  destruct (returned_specs_window ts s e i specs Hs He Hret) as [Hl Hfirst].
  rewrite (get_partition_specs_months ts s e i Hs He Hl Hfirst) in Hret.
  inversion Hret; subst specs; clear Hret.
  destruct (in_expected_specs ts s e a Hs He Ha) as (ta & ma & Hta & Hma & ->).
  destruct (in_expected_specs ts s e b Hs He Hb) as (tb & mb & Htb & Hmb & ->).
  cbn [name] in Hname.
  pose proof (decode_name_partition ta ma Hta Hma) as Da.
  pose proof (decode_name_partition tb mb Htb Hmb) as Db.
  rewrite Hname, Db in Da. inversion Da; subst. reflexivity.
Qed.

Lemma partition_names_unique_witness :
  exists specs,
    get_partition_specs utc_timestamp nov_2023 jan_2024 one_day = Returns specs
    /\ forall a b, In a specs -> In b specs -> name a = name b -> a = b.
Proof.
  eexists. split; [lazy; reflexivity|].
  apply (partition_names_unique utc_timestamp nov_2023 jan_2024 one_day);
    reflexivity.
Defined.

End SchemaExtras.

(** * Further properties of the processor *)

Module ProcessorExtras.
Import Py Processor Tokens Shapes ProcessorProofs.

Lemma Forall2_right {A B} (R : A -> B -> Prop) (P : B -> Prop) xs ys :
  (forall x y, R x y -> P y) -> Forall2 R xs ys -> Forall P ys.
Proof.
  intros HRP. induction 1; constructor; eauto.
Qed.

Lemma outcome_cases {A} (c : outcome A) :
  (exists a, c = Returns a) \/ (exists e, c = Raises e) \/ c = Unfinished.
Proof. destruct c; eauto. Qed.

Lemma py_len_returns_iter v n : py_len v = Returns n -> exists l, py_iter v = Returns l.
Proof. destruct v; cbn; try discriminate; eauto. Qed.

Section Facts.
Variable dex_id : string.
Variable py_int : pyval -> exn + Z.

#[local] Abbreviation swap_event := (swap_event dex_id).
#[local] Abbreviation mint_event := (mint_event dex_id).
#[local] Abbreviation burn_event := (burn_event dex_id).
#[local] Abbreviation base_transaction := (base_transaction dex_id py_int).
#[local] Abbreviation process_response := (process_response dex_id py_int).
#[local] Abbreviation process_bulk_responses := (process_bulk_responses dex_id py_int).
#[local] Abbreviation bulk_loop := (bulk_loop dex_id py_int).

Lemma swap_event_reads t x r : swap_event t x = Returns r -> swap_reads dex_id t x r.
Proof.
  intros H. unfold Processor.swap_event in H. cbv zeta in H. bind_inv H.
  inversion H; subst; clear H. unfold swap_reads. cbn. repeat split; assumption.
Qed.

Lemma mint_event_reads t x r : mint_event t x = Returns r -> liquidity_reads dex_id t x r.
Proof.
  intros H. unfold Processor.mint_event in H. cbv zeta in H. bind_inv H.
  inversion H; subst; clear H. unfold liquidity_reads. cbn. repeat split; assumption.
Qed.

Lemma burn_event_reads t x r : burn_event t x = Returns r -> liquidity_reads dex_id t x r.
Proof.
  intros H. unfold Processor.burn_event in H. cbv zeta in H. bind_inv H.
  inversion H; subst; clear H. unfold liquidity_reads. cbn. repeat split; assumption.
Qed.

Lemma base_transaction_header v t :
  base_transaction v = Returns t -> header_reads dex_id py_int v t.
Proof.
  intros H. unfold Processor.base_transaction in H.
  destruct (getitem v "id") as [id| |] eqn:Eid; cbn [bind] in H; try discriminate.
  destruct (getitem v "blockNumber") as [bn| |] eqn:Ebn; cbn [bind] in H; try discriminate.
  destruct (py_int bn) as [e|n] eqn:Ein; cbn [lift bind] in H; try discriminate.
  destruct (getitem v "timestamp") as [ts| |] eqn:Ets; cbn [bind] in H; try discriminate.
  destruct (py_int ts) as [e|m] eqn:Eim; cbn [lift bind] in H; try discriminate.
  destruct (getitem v "gasUsed") as [gu| |] eqn:Egu; cbn [bind] in H; try discriminate.
  destruct (getitem v "gasPrice") as [gp| |] eqn:Egp; cbn [bind] in H; try discriminate.
  inversion H; subst; clear H. unfold header_reads. cbn.
  repeat split; eauto.
Qed.

(** A returned [process_response], with the value each method was given. *)
Lemma process_response_lists v ev :
  process_response v = Returns ev ->
  exists t d0 d1 d2 d3 d4,
    base_transaction v = Returns t
    /\ py_get v "swaps" (PList []) = Returns d0
    /\ _process_swaps dex_id d0 t = Returns (swaps ev)
    /\ py_get v "mints" (PList []) = Returns d1
    /\ _process_mints dex_id d1 t = Returns (mints ev)
    /\ py_get v "burns" (PList []) = Returns d2
    /\ _process_burns dex_id d2 t = Returns (burns ev)
    /\ py_get v "collects" (PList []) = Returns d3
    /\ _process_collects d3 t = Returns (collects ev)
    /\ py_get v "flashed" (PList []) = Returns d4
    /\ _process_flashs d4 t = Returns (flashs ev).
Proof.
  intros H. unfold Processor.process_response in H. bind_inv H.
  inversion H; subst; clear H. cbn [swaps mints burns collects flashs].
  do 6 eexists. repeat split; eassumption.
Qed.

Lemma process_list_returns_len {E} (event : BaseTransaction -> pyval -> outcome E)
    d t evs :
  process_list event d t = Returns evs -> returned (py_len d) = true.
Proof.
  unfold process_list. destruct (py_len d); cbn [bind]; try discriminate.
  reflexivity.
Qed.

Lemma process_list_empty {E} (event : BaseTransaction -> pyval -> outcome E) d t :
  py_len d = Returns 0 -> process_list event d t = Returns [].
Proof. intros H. unfold process_list. rewrite H. reflexivity. Qed.

(** X6.  For every accepted payload each of the five collections has
    exactly as many records as the payload's sub-list has elements. *)
Theorem collections_keep_cardinality (v : pyval) (ev : Events) :
  process_response v = Returns ev ->
  List.length (swaps ev) = List.length (elements_of v "swaps")
  /\ List.length (mints ev) = List.length (elements_of v "mints")
  /\ List.length (burns ev) = List.length (elements_of v "burns")
  /\ List.length (collects ev) = List.length (elements_of v "collects")
  /\ List.length (flashs ev) = List.length (elements_of v "flashed").
Proof.
  intros H. apply process_response_inv in H.
  destruct H as (t & _ & Hs & Hm & Hb & Hc & Hf).
  repeat split; symmetry; eapply Forall2_length; eassumption.
Qed.

(** X7.  For every accepted payload all records of the five kinds hold one
    and the same parent transaction, whose [id], [gas_used] and [gas_price]
    are the payload's values, whose block number and timestamp are [int]
    of the payload's values, and whose [dex_id] is the processor's. *)
Theorem records_share_parent (v : pyval) (ev : Events) :
  process_response v = Returns ev ->
  exists t,
    header_reads dex_id py_int v t
    /\ Forall (fun r => swap_parent_transaction r = t) (swaps ev)
    /\ Forall (fun r => liq_parent_transaction r = t) (mints ev)
    /\ Forall (fun r => liq_parent_transaction r = t) (burns ev)
    /\ Forall (fun r => spread_parent_transaction r = t) (collects ev)
    /\ Forall (fun r => spread_parent_transaction r = t) (flashs ev).
Proof.
  intros H. apply process_response_carries in H.
  destruct H as (t & Hbase & Hs & Hm & Hb & Hc & Hf).
  exists t. split; [apply base_transaction_header; assumption|].
  repeat split;
    match goal with
    | H : Forall2 _ ?l ?l' |- Forall _ ?l' =>
        eapply Forall2_right; [|exact H]; cbv beta; intros a b Hab;
        destruct Hab as (Hp & _); exact Hp
    end.
Qed.

(** X8.  For every accepted payload each swap, mint and burn record holds
    the processor's [dex_id], the [id] of its element, the symbol, name
    and id found under [pool.token0] in its [token0_*] fields and those
    under [pool.token1] in its [token1_*] fields, and the element's
    [sender] and [recipient] (swaps) or [owner] (mints and burns). *)
Theorem token_fields_by_path (v : pyval) (ev : Events) :
  process_response v = Returns ev ->
  exists t,
    Forall2 (swap_reads dex_id t) (elements_of v "swaps") (swaps ev)
    /\ Forall2 (liquidity_reads dex_id t) (elements_of v "mints") (mints ev)
    /\ Forall2 (liquidity_reads dex_id t) (elements_of v "burns") (burns ev).
Proof.
  intros H. apply process_response_inv in H.
  destruct H as (t & _ & Hs & Hm & Hb & _).
  exists t. repeat split;
    match goal with
    | H : Forall2 _ ?l ?l' |- Forall2 _ ?l ?l' =>
        eapply Forall2_impl; [|exact H]; cbv beta; intros a b Hab
    end;
    first [ apply swap_event_reads; assumption
          | apply mint_event_reads; assumption
          | apply burn_event_reads; assumption ].
Qed.

(** X9.  [_process_mints] and [_process_burns] read the token ids and names
    in a different order, yet on every element one returns a record
    exactly when the other returns the same record, and one raises
    exactly when the other raises. *)
Theorem mint_and_burn_agree (t : BaseTransaction) (x : pyval) :
  (forall r, mint_event t x = Returns r <-> burn_event t x = Returns r)
  /\ ((exists e, mint_event t x = Raises e) <-> (exists e, burn_event t x = Raises e)).
Proof.
  assert (Hr : forall r, mint_event t x = Returns r <-> burn_event t x = Returns r).
  { intros r. split; intros H.
    - unfold Processor.mint_event in H. cbv zeta in H. bind_inv H.
      inversion H; subst; clear H.
      unfold Processor.burn_event. cbv zeta.
      repeat match goal with
      | E : ?c = Returns _ |- context [bind ?c _] => rewrite E; cbn [bind]
      end. reflexivity.
    - unfold Processor.burn_event in H. cbv zeta in H. bind_inv H.
      inversion H; subst; clear H.
      unfold Processor.mint_event. cbv zeta.
      repeat match goal with
      | E : ?c = Returns _ |- context [bind ?c _] => rewrite E; cbn [bind]
      end. reflexivity. }
  split; [exact Hr|].
  pose proof (mint_event_finishes dex_id t x) as Fm.
  pose proof (burn_event_finishes dex_id t x) as Fb.
  split; intros [e He].
  - destruct (outcome_cases (burn_event t x)) as [[r Eb]|[[e' Eb]|Eb]];
      [|eauto|contradiction].
    apply Hr in Eb. congruence.
  - destruct (outcome_cases (mint_event t x)) as [[r Em]|[[e' Em]|Em]];
      [|eauto|contradiction].
    apply Hr in Em. congruence.
Qed.

(** X11.  A payload with a well-formed header whose five sub-lists are
    absent or empty is accepted, with five empty collections. *)
Theorem payload_without_events (v : pyval) (t : BaseTransaction) :
  base_transaction v = Returns t ->
  (forall k, In k event_keys ->
     exists d, py_get v k (PList []) = Returns d /\ py_len d = Returns 0) ->
  process_response v = Returns (mk_events [] [] [] [] []).
Proof.
  intros Hbase Hk. unfold Processor.process_response. rewrite Hbase. cbn [bind].
  destruct (Hk "swaps"%string) as (d0 & G0 & H0); [cbn; auto|].
  destruct (Hk "mints"%string) as (d1 & G1 & H1); [cbn; auto|].
  destruct (Hk "burns"%string) as (d2 & G2 & H2); [cbn; auto|].
  destruct (Hk "collects"%string) as (d3 & G3 & H3); [cbn; auto|].
  destruct (Hk "flashed"%string) as (d4 & G4 & H4); [cbn; auto 10|].
  unfold _process_swaps, _process_mints, _process_burns, _process_collects,
    _process_flashs.
  rewrite G0. cbn [bind]. rewrite (process_list_empty _ _ _ H0). cbn [bind].
  rewrite G1. cbn [bind]. rewrite (process_list_empty _ _ _ H1). cbn [bind].
  rewrite G2. cbn [bind]. rewrite (process_list_empty _ _ _ H2). cbn [bind].
  rewrite G3. cbn [bind]. rewrite (process_list_empty _ _ _ H3). cbn [bind].
  rewrite G4. cbn [bind]. rewrite (process_list_empty _ _ _ H4). cbn [bind].
  reflexivity.
Qed.

(** X12.  A payload in which one of the five sub-list keys holds a value
    that [len] refuses ([None], a number, a boolean) is rejected: the key
    must be absent, not null, for the kind to count as empty. *)
Theorem uncountable_sublist_rejected (v : pyval) (k : string) (d : pyval) :
  In k event_keys ->
  py_get v k (PList []) = Returns d ->
  returned (py_len d) = false ->
  exists e, process_response v = Raises e.
Proof.
  intros Hin Hget Hlen.
  destruct (outcome_cases (process_response v)) as [[ev Hev]|[[e He]|Hu]];
    [|eauto|exfalso; eapply process_response_finishes; eauto].
  exfalso. apply process_response_lists in Hev.
  destruct Hev as (t & d0 & d1 & d2 & d3 & d4 & _
                   & G0 & P0 & G1 & P1 & G2 & P2 & G3 & P3 & G4 & P4).
  cbn in Hin.
  destruct Hin as [<-|[<-|[<-|[<-|[<-|[]]]]]];
    match goal with
    | G : py_get v ?key _ = Returns ?d', P : _ = Returns (_ ev) |- _ =>
        match type of Hget with
        | py_get v key _ = _ =>
            rewrite G in Hget; inversion Hget; subst d';
            apply process_list_returns_len in P; congruence
        end
    end.
Qed.

Lemma bulk_loop_returns txs evs :
  Forall2 (fun tx ev => process_response tx = Returns ev) txs evs ->
  forall r0 r1 r2 r3 r4,
    bulk_loop txs (r0, r1, r2, r3, r4)
    = Returns (r0 ++ List.concat (map swaps evs), r1 ++ List.concat (map mints evs),
               r2 ++ List.concat (map burns evs), r3 ++ List.concat (map collects evs),
               r4 ++ List.concat (map flashs evs)).
Proof.
  induction 1 as [|tx ev txs evs Htx _ IH]; intros r0 r1 r2 r3 r4;
    cbn [Processor.bulk_loop map List.concat].
  - rewrite !app_nil_r. reflexivity.
  - rewrite Htx. cbn [bind extend_results]. rewrite IH, <- !app_assoc. reflexivity.
Qed.

(** X13.  When every transaction of a batch is accepted,
    [process_bulk_responses] returns, kind by kind, the records of the
    transactions concatenated in batch order. *)
Theorem batch_concatenates_in_order (response_data data transactions_value : pyval)
    (transactions : list pyval) (evs : list Events) :
  getitem response_data "data" = Returns data ->
  getitem data "transactions" = Returns transactions_value ->
  py_iter transactions_value = Returns transactions ->
  Forall2 (fun tx ev => process_response tx = Returns ev) transactions evs ->
  process_bulk_responses response_data = Returns (concat_events evs).
Proof.
  intros Hd Ht Hi Hall. unfold Processor.process_bulk_responses.
  rewrite (getitem_py_get _ _ (PDict []) _ Hd). cbn [bind].
  rewrite (getitem_py_get _ _ (PList []) _ Ht). cbn [bind].
  destruct (py_iter_len _ _ Hi) as [n ->]. cbn [bind].
  rewrite Hd. cbn [bind]. rewrite Ht. cbn [bind]. rewrite Hi. cbn [bind].
  rewrite (bulk_loop_returns _ _ Hall). reflexivity.
Qed.

(** X14.  [process_bulk_responses] raises [KeyError] on a response dict
    without [data], [KeyError] on one whose [data] dict has no
    [transactions], and [AttributeError] on one whose [data] is null. *)
Theorem batch_shape_errors (items : list (string * pyval)) :
  (lookup "data" items = None ->
   process_bulk_responses (PDict items) = Raises (KeyError "data"))
  /\ (forall inner, lookup "data" items = Some (PDict inner) ->
        lookup "transactions" inner = None ->
        process_bulk_responses (PDict items) = Raises (KeyError "transactions"))
  /\ (lookup "data" items = Some PNone ->
      process_bulk_responses (PDict items) = Raises AttributeError).
Proof.
  unfold Processor.process_bulk_responses. cbn [py_get getitem].
  repeat split.
  - intros ->. reflexivity.
  - intros inner -> Ht. cbn [bind py_get getitem]. rewrite Ht. reflexivity.
  - intros ->. reflexivity.
Qed.

End Facts.

(** X10.  In each of the five [_process_*] methods (the instances of
    [process_list]) a list whose elements convert up to one that raises
    [e] makes the method raise [e]: the records built before it are not
    returned. *)
Theorem sublist_fails_at_first_bad_element {E : Type}
    (event : BaseTransaction -> pyval -> outcome E)
    (t : BaseTransaction) (pre post : list pyval) (bad : pyval) (e : exn) :
  Forall (fun x => returned (event t x) = true) pre ->
  event t bad = Raises e ->
  process_list event (PList (pre ++ bad :: post)) t = Raises e.
Proof.
  intros Hpre Hbad. unfold process_list. cbn [py_len py_iter bind].
  replace (Z.of_nat (List.length (pre ++ bad :: post)) >? 0) with true.
  2:{ symmetry. rewrite length_app. cbn [List.length].
      destruct (Z.gtb_spec (Z.of_nat (List.length pre + S (List.length post))) 0);
        [reflexivity|lia]. }
  cbn [negb]. induction Hpre as [|a pre Ha _ IH]; cbn [app for_each].
  - rewrite Hbad. reflexivity.
  - destruct (event t a); try discriminate. cbn [bind]. rewrite IH. reflexivity.
Qed.


(** *** Tokens *)

Lemma token_tuple_reads tok tr : token_tuple tok = Returns tr -> tuple_reads tok tr.
Proof.
  intros H. unfold token_tuple in H. bind_inv H. inversion H; subst; clear H.
  unfold tuple_reads. cbn. auto.
Qed.

Lemma token_tuple_finishes tok : token_tuple tok <> Unfinished.
Proof. unfold token_tuple. finishes. Qed.

Lemma for_each_raises_from {A B} (f : A -> outcome B) xs e :
  for_each f xs = Raises e -> exists x, In x xs /\ f x = Raises e.
Proof.
  induction xs as [|a xs IH]; cbn [for_each]; [discriminate|].
  destruct (f a) as [b|e'|] eqn:Ea; cbn [bind].
  - destruct (for_each f xs) as [ys|e'|]; cbn [bind]; try discriminate.
    intros H. destruct (IH H) as (x & Hx & Hfx). exists x. split; [right|]; assumption.
  - intros H. inversion H; subst. exists a. split; [left; reflexivity|assumption].
  - discriminate.
Qed.

Lemma for_each_first_failure {A B} (f : A -> outcome B) pre bad post e :
  Forall (fun x => returned (f x) = true) pre ->
  f bad = Raises e ->
  for_each f (pre ++ bad :: post) = Raises e.
Proof.
  intros Hpre Hbad. induction Hpre as [|a pre Ha _ IH]; cbn [app for_each].
  - rewrite Hbad. reflexivity.
  - destruct (f a); try discriminate. cbn [bind]. rewrite IH. reflexivity.
Qed.

(** X15.  When [_process_tokens] returns, its tuples are, token by token
    and in order, the [id], [symbol] and [name] values of the listed
    tokens. *)
Theorem tokens_listed_in_order (tokens_data : pyval)
    (tuples : list (pyval * pyval * pyval)) :
  _process_tokens tokens_data = Returns tuples ->
  Forall2 tuple_reads (tokens_of tokens_data) tuples.
Proof.
  intros H. unfold _process_tokens in H. unfold tokens_of.
  destruct (py_get tokens_data "data" (PDict [])) as [d| |]; cbn [bind] in *;
    try discriminate.
  destruct (py_get d "tokens" (PList [])) as [tv| |]; cbn [bind] in *;
    try discriminate.
  destruct (py_iter tv) as [l| |]; cbn [bind] in *; try discriminate.
  apply for_each_Forall2 in H.
  eapply Forall2_impl; [|exact H]. cbv beta. intros a b. apply token_tuple_reads.
Qed.

(** X16.  [_process_tokens] returns the empty list, and raises nothing,
    on a response dict without [data] or whose [data] dict has no
    [tokens]. *)
Theorem tokens_absent_is_empty (items : list (string * pyval)) :
  lookup "data" items = None
  \/ (exists inner, lookup "data" items = Some (PDict inner)
                    /\ lookup "tokens" inner = None) ->
  _process_tokens (PDict items) = Returns [].
Proof.
  unfold _process_tokens. cbn [py_get].
  intros [->|(inner & -> & Ht)]; cbn [bind py_get lookup]; [reflexivity|].
  rewrite Ht. reflexivity.
Qed.

(** X17.  A token listing whose tokens convert up to one that raises [e]
    makes [_process_tokens] raise [e]; no shorter list is returned. *)
Theorem tokens_fail_at_first_bad_token (tokens_data data tokens_value : pyval)
    (pre post : list pyval) (bad : pyval) (e : exn) :
  py_get tokens_data "data" (PDict []) = Returns data ->
  py_get data "tokens" (PList []) = Returns tokens_value ->
  py_iter tokens_value = Returns (pre ++ bad :: post) ->
  Forall (fun tok => returned (token_tuple tok) = true) pre ->
  token_tuple bad = Raises e ->
  _process_tokens tokens_data = Raises e.
Proof.
  intros Hd Ht Hi Hpre Hbad. unfold _process_tokens.
  rewrite Hd. cbn [bind]. rewrite Ht. cbn [bind]. rewrite Hi. cbn [bind].
  apply for_each_first_failure; assumption.
Qed.

(** *** The properties above on sample payloads *)

Import Samples MoreSamples.

Lemma collections_keep_cardinality_witness :
  exists ev,
    process_response uniswap_v3 int_decimal tx_collect = Returns ev
    /\ List.length (swaps ev) = List.length (elements_of tx_collect "swaps")
    /\ List.length (mints ev) = List.length (elements_of tx_collect "mints")
    /\ List.length (burns ev) = List.length (elements_of tx_collect "burns")
    /\ List.length (collects ev) = List.length (elements_of tx_collect "collects")
    /\ List.length (flashs ev) = List.length (elements_of tx_collect "flashed").
Proof.
  eexists. split; [lazy; reflexivity|].
  apply (collections_keep_cardinality uniswap_v3 int_decimal tx_collect).
  reflexivity.
Defined.

Lemma records_share_parent_witness :
  exists ev,
    process_response uniswap_v3 int_decimal tx_collect = Returns ev
    /\ exists t,
         header_reads uniswap_v3 int_decimal tx_collect t
         /\ Forall (fun r => swap_parent_transaction r = t) (swaps ev)
         /\ Forall (fun r => liq_parent_transaction r = t) (mints ev)
         /\ Forall (fun r => liq_parent_transaction r = t) (burns ev)
         /\ Forall (fun r => spread_parent_transaction r = t) (collects ev)
         /\ Forall (fun r => spread_parent_transaction r = t) (flashs ev).
Proof.
  eexists. split; [lazy; reflexivity|].
  apply (records_share_parent uniswap_v3 int_decimal tx_collect).
  reflexivity.
Defined.

Lemma token_fields_by_path_witness :
  exists ev,
    process_response uniswap_v3 int_decimal tx_swap = Returns ev
    /\ map swap_token0_symbol (swaps ev) = [PStr "WETH"]
    /\ map swap_token1_symbol (swaps ev) = [PStr "USDC"]
    /\ exists t,
         Forall2 (swap_reads uniswap_v3 t) (elements_of tx_swap "swaps") (swaps ev)
         /\ Forall2 (liquidity_reads uniswap_v3 t) (elements_of tx_swap "mints") (mints ev)
         /\ Forall2 (liquidity_reads uniswap_v3 t) (elements_of tx_swap "burns") (burns ev).
Proof.
  eexists. split; [lazy; reflexivity|]. split; [reflexivity|].
  split; [reflexivity|].
  apply (token_fields_by_path uniswap_v3 int_decimal tx_swap).
  reflexivity.
Defined.

Lemma sublist_fails_at_first_bad_element_witness :
  _process_swaps uniswap_v3 (PList [swap_full; swap_no_origin; swap_full])
    sample_transaction
  = Raises (KeyError "origin").
Proof.
  apply (sublist_fails_at_first_bad_element (swap_event uniswap_v3)
           sample_transaction [swap_full] [swap_full] swap_no_origin
           (KeyError "origin")).
  - constructor; [reflexivity|constructor].
  - reflexivity.
Defined.

Lemma payload_without_events_witness :
  process_response uniswap_v3 int_decimal tx_header_only
  = Returns (mk_events [] [] [] [] []).
Proof.
  apply (payload_without_events uniswap_v3 int_decimal tx_header_only
           sample_transaction).
  - reflexivity.
  - intros k Hin. exists (PList []). cbn in Hin.
    destruct Hin as [<-|[<-|[<-|[<-|[<-|[]]]]]]; split; reflexivity.
Defined.

Lemma uncountable_sublist_rejected_witness :
  exists e, process_response uniswap_v3 int_decimal tx_null_mints = Raises e.
Proof.
  apply (uncountable_sublist_rejected uniswap_v3 int_decimal tx_null_mints
           "mints" PNone).
  - right. left. reflexivity.
  - reflexivity.
  - reflexivity.
Defined.

Lemma batch_concatenates_in_order_witness :
  exists evs,
    process_bulk_responses uniswap_v3 int_decimal good_batch
      = Returns (concat_events evs)
    /\ List.length evs = 2%nat.
Proof.
  eexists. split.
  - eapply (batch_concatenates_in_order uniswap_v3 int_decimal good_batch
              _ _ [tx_swap; tx_collect]);
      [reflexivity|reflexivity|reflexivity|].
    constructor; [lazy; reflexivity|].
    constructor; [lazy; reflexivity|]. constructor.
  - reflexivity.
Defined.

Lemma batch_shape_errors_witness :
  process_bulk_responses uniswap_v3 int_decimal empty_response
    = Raises (KeyError "data")
  /\ process_bulk_responses uniswap_v3 int_decimal (PDict no_transactions_items)
     = Raises (KeyError "transactions")
  /\ process_bulk_responses uniswap_v3 int_decimal null_data_response
     = Raises AttributeError.
Proof.
  split; [|split].
  - apply (proj1 (batch_shape_errors uniswap_v3 int_decimal error_items)).
    reflexivity.
  - apply (proj1 (proj2 (batch_shape_errors uniswap_v3 int_decimal
                           no_transactions_items))
             [("tokens"%string, PList [])]); reflexivity.
  - apply (proj2 (proj2 (batch_shape_errors uniswap_v3 int_decimal null_data_items))).
    reflexivity.
Defined.

Lemma tokens_listed_in_order_witness :
  exists tuples,
    _process_tokens tokens_response = Returns tuples
    /\ map snd tuples = [PStr "Wrapped Ether"; PStr "USD Coin"]
    /\ Forall2 tuple_reads (tokens_of tokens_response) tuples.
Proof.
  eexists. split; [lazy; reflexivity|]. split; [reflexivity|].
  apply (tokens_listed_in_order tokens_response). reflexivity.
Defined.

Lemma tokens_absent_is_empty_witness :
  _process_tokens empty_response = Returns []
  /\ _process_tokens (PDict [("data"%string, PDict [])]) = Returns [].
Proof.
  split.
  - apply (tokens_absent_is_empty error_items). left. reflexivity.
  - apply (tokens_absent_is_empty [("data"%string, PDict [])]).
    right. exists []. split; reflexivity.
Defined.

Lemma tokens_fail_at_first_bad_token_witness :
  _process_tokens bad_tokens_response = Raises (KeyError "name").
Proof.
  eapply (tokens_fail_at_first_bad_token bad_tokens_response _ _
            [token "WETH" "Wrapped Ether" "0xc02a"]
            [token "USDC" "USD Coin" "0xa0b8"] nameless_token
            (KeyError "name"));
    [reflexivity|reflexivity|reflexivity| |reflexivity].
  constructor; [reflexivity|constructor].
Defined.

End ProcessorExtras.

(** * Properties of the querier *)

Module QuerierProofs.
Import Py Processor Tokens Querier Shapes ProcessorProofs ProcessorExtras.

Section Facts.
Variable uniswap_v3_query : string.
Variable uniswap_v3_tokens_query : string.
Variable _send_query : string -> list (string * pyval) -> exn + pyval.

#[local] Abbreviation get_transactions :=
  (get_transactions uniswap_v3_query _send_query).
#[local] Abbreviation get_tokens :=
  (get_tokens uniswap_v3_tokens_query _send_query).

Lemma logged_count_finishes r k : logged_count r k <> Unfinished.
Proof. unfold logged_count. finishes. apply py_len_finishes. Qed.

(** X18.  [get_transactions] returns [r] exactly when the query service
    answered [r] to the query with the variables [startTimestamp],
    [endTimestamp] and [skip], and the transaction count that the method
    logs could be taken on [r]; what it returns is the answer itself. *)
Theorem get_transactions_returns_response (start_timestamp end_timestamp skip : Z)
    (r : pyval) :
  get_transactions start_timestamp end_timestamp skip = Returns r
  <-> (_send_query uniswap_v3_query
         [("startTimestamp"%string, PInt start_timestamp);
          ("endTimestamp"%string, PInt end_timestamp);
          ("skip"%string, PInt skip)] = inr r
       /\ returned (logged_count r "transactions") = true).
Proof.
  unfold Querier.get_transactions. cbv zeta.
  destruct (_send_query _ _) as [e|r']; cbn [lift bind].
  - split; [discriminate|]. intros [H _]. discriminate.
  - destruct (logged_count r' "transactions") as [n|e|] eqn:El; cbn [bind].
    + split.
      * intros H. inversion H; subst. rewrite El. auto.
      * intros [H _]. inversion H; subst. reflexivity.
    + split; [discriminate|]. intros [H Hl]. inversion H; subst.
      rewrite El in Hl. discriminate.
    + split; [discriminate|]. intros [H Hl]. inversion H; subst.
      rewrite El in Hl. discriminate.
Qed.

(** X19.  [get_transactions] raises the very exception the query service
    raised; and when the service answers a dict whose [data] is null, it
    raises [AttributeError] although the query itself succeeded. *)
Theorem get_transactions_failures (start_timestamp end_timestamp skip : Z) :
  (forall e,
     _send_query uniswap_v3_query
       [("startTimestamp"%string, PInt start_timestamp);
        ("endTimestamp"%string, PInt end_timestamp);
        ("skip"%string, PInt skip)] = inl e ->
     get_transactions start_timestamp end_timestamp skip = Raises e)
  /\ (forall items,
        _send_query uniswap_v3_query
          [("startTimestamp"%string, PInt start_timestamp);
           ("endTimestamp"%string, PInt end_timestamp);
           ("skip"%string, PInt skip)] = inr (PDict items) ->
        lookup "data" items = Some PNone ->
        get_transactions start_timestamp end_timestamp skip = Raises AttributeError).
Proof.
  unfold Querier.get_transactions. cbv zeta. split.
  - intros e ->. reflexivity.
  - intros items -> Hd. cbn [lift bind]. unfold logged_count. cbn [py_get].
    rewrite Hd. reflexivity.
Qed.

(** X20.  A response dict without [data] passes the querier and stops the
    processor: [get_transactions] returns it as it is, and
    [process_bulk_responses] raises [KeyError] on it. *)
Theorem response_without_data_passes_querier_only (dex_id : string)
    (py_int : pyval -> exn + Z)
    (start_timestamp end_timestamp skip : Z) (items : list (string * pyval)) :
  _send_query uniswap_v3_query
    [("startTimestamp"%string, PInt start_timestamp);
     ("endTimestamp"%string, PInt end_timestamp);
     ("skip"%string, PInt skip)] = inr (PDict items) ->
  lookup "data" items = None ->
  get_transactions start_timestamp end_timestamp skip = Returns (PDict items)
  /\ process_bulk_responses dex_id py_int (PDict items) = Raises (KeyError "data").
Proof.
  intros Hq Hd. split.
  - unfold Querier.get_transactions. cbv zeta. rewrite Hq. cbn [lift bind].
    unfold logged_count. cbn [py_get]. rewrite Hd. reflexivity.
  - unfold process_bulk_responses. cbn [py_get getitem]. rewrite Hd. reflexivity.
Qed.

(** X21.  On a response that [get_tokens] returned, [_process_tokens]
    reaches the listed tokens: it finishes, its result is the conversion
    of those tokens one by one, and an exception it raises was raised by
    the conversion of one of them. *)
Theorem fetched_tokens_fail_only_on_a_token (skip : Z) (r : pyval) :
  get_tokens skip = Returns r ->
  _process_tokens r = for_each token_tuple (tokens_of r)
  /\ (forall e, _process_tokens r = Raises e ->
        exists tok, In tok (tokens_of r) /\ token_tuple tok = Raises e)
  /\ _process_tokens r <> Unfinished.
Proof.
  intros H. unfold Querier.get_tokens in H. cbv zeta in H.
  destruct (_send_query _ _) as [e|r']; cbn [lift bind] in H; [discriminate|].
  destruct (logged_count r' "tokens") as [n| |] eqn:El; cbn [bind] in H;
    try discriminate.
  inversion H; subst r'; clear H.
  unfold logged_count in El.
  destruct (py_get r "data" (PDict [])) as [d| |] eqn:Ed; cbn [bind] in El;
    try discriminate.
  destruct (py_get d "tokens" (PList [])) as [tv| |] eqn:Et; cbn [bind] in El;
    try discriminate.
  destruct (py_len_returns_iter _ _ El) as [l Hl].
  assert (Heq : _process_tokens r = for_each token_tuple (tokens_of r)).
  { unfold _process_tokens, tokens_of. rewrite Ed. cbn [bind]. rewrite Et.
    cbn [bind]. rewrite Hl. reflexivity. }
  split; [exact Heq|]. split.
  - intros e He. rewrite Heq in He. apply for_each_raises_from. assumption.
  - rewrite Heq. apply for_each_finishes. apply token_tuple_finishes.
Qed.

End Facts.

Import Samples MoreSamples.

Lemma get_transactions_failures_witness :
  get_transactions "query" (refuses ValueError) 1700000000 1700003600 0
    = Raises ValueError
  /\ get_transactions "query" (always null_data_response) 1700000000 1700003600 0
     = Raises AttributeError.
Proof.
  split.
  - apply (proj1 (get_transactions_failures "query" (refuses ValueError)
                    1700000000 1700003600 0)).
    reflexivity.
  - apply (proj2 (get_transactions_failures "query" (always null_data_response)
                    1700000000 1700003600 0) null_data_items);
      reflexivity.
Defined.

Lemma response_without_data_passes_querier_only_witness :
  get_transactions "query" (always empty_response) 1700000000 1700003600 0
    = Returns empty_response
  /\ process_bulk_responses uniswap_v3 int_decimal empty_response
     = Raises (KeyError "data").
Proof.
  apply (response_without_data_passes_querier_only "query" (always empty_response)
           uniswap_v3 int_decimal 1700000000 1700003600 0 error_items);
    reflexivity.
Defined.

Lemma fetched_tokens_fail_only_on_a_token_witness :
  _process_tokens bad_tokens_response
    = for_each token_tuple (tokens_of bad_tokens_response)
  /\ (forall e, _process_tokens bad_tokens_response = Raises e ->
        exists tok, In tok (tokens_of bad_tokens_response)
                    /\ token_tuple tok = Raises e)
  /\ _process_tokens bad_tokens_response <> Unfinished.
Proof.
  apply (fetched_tokens_fail_only_on_a_token "tokens query"
           (always bad_tokens_response) 0 bad_tokens_response).
  reflexivity.
Defined.

End QuerierProofs.
